(** * AssistantAidan front end: image intake, upload session and request binding

    A shallow embedding of the React components of the client
    ([CombinedInput], [ImageUpload], [ImageUploader], [UnifiedInputBox],
    [GeneratePage]) and of the axios response interceptor, followed by
    the properties the specification states about them.

    Where the definitions come from:
    - [CombinedInput]: src/components/CombinedInput.tsx;
    - [ImageUpload]: the component of that name, whose validator is the
      same code;
    - [ImageUploader]: the component [UnifiedInputBox] imports;
    - [UnifiedInputBox]: src/components/UnifiedInputBox.tsx;
    - [GeneratePage]: src/pages/GeneratePage.tsx;
    - [DirectUploadPage]: the [GeneratePage] variant that renders
      [CombinedInput] and re-sends the files with each generation;
    - [Api]: lib/api, the axios client and its interceptors.

    Conventions of the embedding:
    - a component's [useState] cells are the fields of a [State] record;
      an event handler is a function from the state of the render it
      closes over to the state after its [set...] calls, together with
      the effects it issued (HTTP requests, preview handles, callbacks);
    - an [async] handler is split at its [await]: the part before it and
      the part that runs when the response arrives;
    - JavaScript truthiness ([if (x)], [x || d], [!x]) is written out. *)

From Stdlib Require Import ZArith Lia Ascii.
From stdpp Require Import base numbers list strings pretty.

Local Open Scope Z_scope.

(** ** JavaScript strings *)

Module Js.

(** Characters removed by [String.prototype.trim] (ECMAScript
    WhiteSpace and LineTerminator) among the 8-bit characters:
    TAB, LF, VT, FF, CR, SPACE and NO-BREAK SPACE. *)
Definition isWhiteSpace (c : ascii) : bool :=
  let n := nat_of_ascii c in
  ((9 <=? n)%nat && (n <=? 13)%nat) || (n =? 32)%nat || (n =? 160)%nat.

Fixpoint trimStart (s : string) : string :=
  match s with
  | EmptyString => EmptyString
  | String c s' => if isWhiteSpace c then trimStart s' else s
  end.

Fixpoint trimEnd (s : string) : string :=
  match s with
  | EmptyString => EmptyString
  | String c s' =>
      match trimEnd s' with
      | EmptyString => if isWhiteSpace c then EmptyString else String c EmptyString
      | t => String c t
      end
  end.

(** [s.trim()] *)
Definition trim (s : string) : string := trimEnd (trimStart s).

(** A string that is empty or holds whitespace only. *)
Fixpoint blank (s : string) : bool :=
  match s with
  | EmptyString => true
  | String c s' => isWhiteSpace c && blank s'
  end.

(** Truthiness of a string: every string but the empty one. *)
Definition truthy (s : string) : bool :=
  match s with
  | EmptyString => false
  | String _ _ => true
  end.

(** Truthiness of [string | null | undefined]. *)
Definition truthy_opt (o : option string) : bool :=
  match o with
  | Some s => truthy s
  | None => false
  end.

(** [a || b] on strings. *)
Definition or_else (a : option string) (b : string) : string :=
  match a with
  | Some s => if truthy s then s else b
  | None => b
  end.

(** [s.startsWith(p)] *)
Definition startsWith (s p : string) : bool := String.prefix p s.

(** [xs.includes(x)] on an array of strings. *)
Definition includes (xs : list string) (x : string) : bool :=
  existsb (String.eqb x) xs.

(** [xs.join(sep)] *)
Definition join (sep : string) (xs : list string) : string :=
  String.concat sep xs.

(** [xs.filter((x, i) => p x i)], the index counted from [k]. *)
Fixpoint filter_from {A} (p : A -> nat -> bool) (k : nat) (xs : list A) : list A :=
  match xs with
  | [] => []
  | x :: xs' =>
      if p x k then x :: filter_from p (S k) xs' else filter_from p (S k) xs'
  end.

Definition filteri {A} (p : A -> nat -> bool) (xs : list A) : list A :=
  filter_from p 0 xs.

End Js.

(** ** Browser objects *)

(** A [File]: the attributes the components read, and [blob], which
    stands for the file's bytes.  A size is a byte count. *)
Module File.
Record t := mk { name : string; size : Z; type : string; blob : nat }.
End File.

(** A preview reference.  [URL.createObjectURL] hands out a fresh
    object URL on every call; [FileReader.readAsDataURL] yields a URL
    that is a function of the file's bytes.  The components only store
    and render these strings. *)
Inductive Preview :=
| ObjectURL (n : nat)
| DataURL (blob : nat).

(** ** [CombinedInput] (and [ImageUpload], whose validator is the same code) *)

Module CombinedInput.

Record UploadedImage := mkImage {
  file : File.t;
  preview : Preview;
  originalName : string;
  size : Z
}.

Record Props := {
  disabled : bool;
  maxImages : Z;
  maxSizePerImage : Z  (* in MB *)
}.

(** The defaults of the destructured props. *)
Definition defaults : Props :=
  {| disabled := false; maxImages := 5; maxSizePerImage := 10 |}.

Record State := {
  images : list UploadedImage;
  dragActive : bool;
  error : string
}.

Definition initial : State :=
  {| images := []; dragActive := false; error := "" |}.

Definition setImages (v : list UploadedImage) (s : State) : State :=
  {| images := v; dragActive := dragActive s; error := error s |}.

Definition setError (v : string) (s : State) : State :=
  {| images := images s; dragActive := dragActive s; error := v |}.

Definition allowedTypes : list string :=
  ["image/jpeg"; "image/jpg"; "image/png"; "image/gif"; "image/webp"].

Definition maxSizeBytes (p : Props) : Z := maxSizePerImage p * 1024 * 1024.

Definition typeMessage : string :=
  "Invalid file type. Only " +:+ Js.join ", " allowedTypes +:+ " are allowed.".

Definition sizeMessage (p : Props) : string :=
  "File size must be less than " +:+ pretty (maxSizePerImage p) +:+ "MB.".

Definition countMessage (p : Props) : string :=
  "Maximum " +:+ pretty (maxImages p) +:+ " images allowed.".

(** [validateFile]: [None] is [null]. *)
Definition validateFile (p : Props) (f : File.t) : option string :=
  if negb (Js.includes allowedTypes (File.type f)) then Some typeMessage
  else if File.size f >? maxSizeBytes p then Some (sizeMessage p)
  else None.

(** [img.file.name === file.name && img.file.size === file.size] *)
Definition sameFile (f : File.t) (img : UploadedImage) : bool :=
  String.eqb (File.name (file img)) (File.name f)
  && (File.size (file img) =? File.size f).

Definition isDuplicate (imgs : list UploadedImage) (f : File.t) : bool :=
  existsb (sameFile f) imgs.

(** The variables the [forEach] callback of [processFiles] updates:
    [newImages], [errorMessage], and the number of object URLs the
    browser has handed out so far. *)
Record Loop := {
  newImages : list UploadedImage;
  errorMessage : string;
  urls : nat
}.

(** The tail of the [forEach] callback: the duplicate check and the push. *)
Definition collect (imgs : list UploadedImage) (l : Loop) (f : File.t) : Loop :=
  if isDuplicate imgs f then l
  else {| newImages := newImages l ++ [mkImage f (ObjectURL (urls l)) (File.name f) (File.size f)];
          errorMessage := errorMessage l;
          urls := S (urls l) |}.

(** One run of the [forEach] callback; its [return] skips the file. *)
Definition visit (p : Props) (imgs : list UploadedImage) (l : Loop) (f : File.t) : Loop :=
  match validateFile p f with
  | Some validationError =>
      if Js.truthy validationError
      then {| newImages := newImages l; errorMessage := validationError; urls := urls l |}
      else collect imgs l f
  | None => collect imgs l f
  end.

(** What a call of [processFiles] leaves behind: the component state,
    the number of object URLs created so far, and the argument of
    [onImagesChange] when it was called. *)
Record Outcome := {
  state : State;
  created : nat;
  notified : option (list File.t)
}.

Definition processFiles (p : Props) (s : State) (u : nat) (fileArray : list File.t) : Outcome :=
  if Z.of_nat (length (images s)) + Z.of_nat (length fileArray) >? maxImages p
  then {| state := setError (countMessage p) s; created := u; notified := None |}
  else
    let l := fold_left (visit p (images s)) fileArray
               {| newImages := []; errorMessage := ""; urls := u |} in
    if Js.truthy (errorMessage l)
    then {| state := setError (errorMessage l) s; created := urls l; notified := None |}
    else
      let updatedImages := images s ++ newImages l in
      {| state := setError "" (setImages updatedImages s);
         created := urls l;
         notified := Some (file <$> updatedImages) |}.

(** [removeImage]: the new state, the preview it revokes and the files
    it reports.  For an [index] outside the array, [images[index]] is
    [undefined] and reading its [preview] throws before any state is
    set: [None]. *)
Definition removeImage (s : State) (index : nat) : option (State * Preview * list File.t) :=
  let updatedImages := Js.filteri (fun _ i => negb (i =? index)%nat) (images s) in
  match images s !! index with
  | Some img =>
      Some (setError "" (setImages updatedImages s), preview img, file <$> updatedImages)
  | None => None
  end.

Definition setDragActive (v : bool) (s : State) : State :=
  {| images := images s; dragActive := v; error := error s |}.

(** [handleDrag]; [type] is [e.type]. *)
Definition handleDrag (type : string) (s : State) : State :=
  if String.eqb type "dragenter" || String.eqb type "dragover" then setDragActive true s
  else if String.eqb type "dragleave" then setDragActive false s
  else s.

(** [handleDrop]; [files] is [e.dataTransfer.files]. *)
Definition handleDrop (p : Props) (s : State) (u : nat) (files : list File.t) : Outcome :=
  let s := setDragActive false s in
  if disabled p then {| state := s; created := u; notified := None |}
  else if (0 <? length files)%nat then processFiles p s u files
  else {| state := s; created := u; notified := None |}.

(** [handleFileInput]; [files] is [e.target.files]. *)
Definition handleFileInput (p : Props) (s : State) (u : nat) (files : list File.t) : Outcome :=
  if disabled p then {| state := s; created := u; notified := None |}
  else if (0 <? length files)%nat then processFiles p s u files
  else {| state := s; created := u; notified := None |}.

End CombinedInput.

(** [ImageUpload] declares the same [validateFile] and [processFiles],
    statement for statement. *)
Module ImageUpload.
Definition processFiles := CombinedInput.processFiles.

(** [removeImage], [handleDrop] and [handleFileInput] are the same code
    as well. *)
Definition removeImage := CombinedInput.removeImage.

(** [clearAllImages]: the new state, the previews it revokes, in the
    order of the calls, and the files it reports. *)
Definition clearAllImages (s : CombinedInput.State)
  : CombinedInput.State * list Preview * list File.t :=
  (CombinedInput.setError "" (CombinedInput.setImages [] s),
   CombinedInput.preview <$> CombinedInput.images s,
   []).
End ImageUpload.

(** ** [ImageUploader] *)

Module ImageUploader.

Record UploadedImage := mkImage {
  file : File.t;
  preview : Preview;
  filename : string;
  size : Z
}.

Record Props := {
  maxFiles : Z;
  maxSizeMB : Z;
  disabled : bool;
  compact : bool
}.

Definition defaults : Props :=
  {| maxFiles := 5; maxSizeMB := 10; disabled := false; compact := false |}.

Record State := {
  isDragging : bool;
  error : option string
}.

Definition setError (v : option string) (s : State) : State :=
  {| isDragging := isDragging s; error := v |}.

Definition maxSizeBytes (p : Props) : Z := maxSizeMB p * 1024 * 1024.

Definition noImageMessage : string := "Please select image files only".

Definition countMessage (p : Props) : string :=
  "Maximum " +:+ pretty (maxFiles p) +:+ " images allowed".

Definition sizeMessage (p : Props) : string :=
  "Some files exceed " +:+ pretty (maxSizeMB p) +:+ "MB limit".

(** [file.type.startsWith('image/')] *)
Definition isImage (f : File.t) : bool := Js.startsWith (File.type f) "image/".

Definition oversized (p : Props) (f : File.t) : bool := File.size f >? maxSizeBytes p.

(** [processFiles] up to the point where the readers are started:
    the state after its [setError] calls and, when the batch passed,
    the image files a [FileReader] was started for. *)
Definition processFiles (p : Props) (s : State) (fileArray : list File.t)
  : State * option (list File.t) :=
  let s := setError None s in
  let imageFiles := List.filter isImage fileArray in
  if (length imageFiles =? 0)%nat then (setError (Some noImageMessage) s, None)
  else if Z.of_nat (length imageFiles) >? maxFiles p
  then (setError (Some (countMessage p)) s, None)
  else
    let oversizedFiles := List.filter (oversized p) imageFiles in
    if (0 <? length oversizedFiles)%nat then (setError (Some (sizeMessage p)) s, None)
    else (s, Some imageFiles).

(** What [reader.onload] pushes for a file. *)
Definition loaded (f : File.t) : UploadedImage :=
  mkImage f (DataURL (File.blob f)) (File.name f) (File.size f).

(** The argument of [onImagesSelected] once every reader has fired,
    when the readers complete in the order they were started.  (The
    callbacks push in completion order, so the array is in general a
    permutation of this one.) *)
Definition selected (imageFiles : list File.t) : list UploadedImage :=
  loaded <$> imageFiles.

(** The variables of [processFiles] that the [onload] callbacks share,
    and [total], which is [imageFiles.length]. *)
Record Loading := {
  total : nat;
  uploadedImages : list UploadedImage;
  processed : nat
}.

(** The state of the loop when the readers have been started. *)
Definition reading (imageFiles : list File.t) : Loading :=
  {| total := length imageFiles; uploadedImages := []; processed := 0 |}.

(** [reader.onload] for the reader of [f]: the loop state after it, and
    the argument of [onImagesSelected] when it makes the call. *)
Definition onload (f : File.t) (l : Loading) : Loading * option (list UploadedImage) :=
  let l' := {| total := total l;
               uploadedImages := uploadedImages l ++ [loaded f];
               processed := S (processed l) |} in
  (l', if (processed l' =? total l')%nat then Some (uploadedImages l') else None).

(** The readers of the files [fs] fire in this order: the loop state
    after them and the calls of [onImagesSelected] they made. *)
Fixpoint onloads (fs : list File.t) (l : Loading) : Loading * list (list UploadedImage) :=
  match fs with
  | [] => (l, [])
  | f :: fs' =>
      let r := onload f l in
      let r' := onloads fs' r.1 in
      (r'.1, match r.2 with Some imgs => imgs :: r'.2 | None => r'.2 end)
  end.

Definition setIsDragging (v : bool) (s : State) : State :=
  {| isDragging := v; error := error s |}.

(** [handleFileChange]; [files] is [e.target.files]. *)
Definition handleFileChange (p : Props) (s : State) (files : list File.t)
  : State * option (list File.t) :=
  if (0 <? length files)%nat then processFiles p s files else (s, None).

(** [handleDrop]; [files] is [e.dataTransfer.files]. *)
Definition handleDrop (p : Props) (s : State) (files : list File.t)
  : State * option (list File.t) :=
  let s := setIsDragging false s in
  if negb (disabled p) && (0 <? length files)%nat then processFiles p s files else (s, None).

(** An entry of [e.clipboardData.items]: its [type] and what
    [getAsFile()] returns. *)
Record Item := {
  itemType : string;
  getAsFile : option File.t
}.

(** The [for] loop of [handlePaste]. *)
Fixpoint pastedFiles (items : list Item) : list File.t :=
  match items with
  | [] => []
  | item :: items' =>
      if Js.startsWith (itemType item) "image/" then
        match getAsFile item with
        | Some file => file :: pastedFiles items'
        | None => pastedFiles items'
        end
      else pastedFiles items'
  end.

(** [handlePaste]; [items] is [e.clipboardData?.items], and the first
    component tells whether [e.preventDefault()] was called. *)
Definition handlePaste (p : Props) (s : State) (items : option (list Item))
  : bool * (State * option (list File.t)) :=
  if disabled p then (false, (s, None))
  else
    match items with
    | None => (false, (s, None))
    | Some items =>
        let files := pastedFiles items in
        if (0 <? length files)%nat then (true, processFiles p s files)
        else (false, (s, None))
    end.

End ImageUploader.

(** ** HTTP requests issued through the [api] client *)

Inductive Part :=
| Text (v : string)
| Blob (f : File.t).

Inductive Body :=
| Json (fields : list (string * string))
| FormData (parts : list (string * Part)).

Inductive Request :=
| Post (url : string) (body : Body)
| Delete (url : string).

(** ** [UnifiedInputBox] *)

Module UnifiedInputBox.

(** [ocrConfidence] is a JSON number between 0 and 100 that the code
    stores and defaults with [|| 0]; an integer stands for it. *)
Record ImagePreview := mkPreview {
  preview : Preview;
  filename : string;
  size : Z;
  detectedJiraKeys : list string;
  ocrConfidence : Z
}.

Record State := {
  images : list ImagePreview;
  imageSessionId : option string;
  uploading : bool;
  detectedKeys : list string;      (* the [detectedJiraKeys] cell *)
  showDetectedKeys : bool;
  uploadError : option string
}.

Definition initial : State :=
  {| images := []; imageSessionId := None; uploading := false;
     detectedKeys := []; showDetectedKeys := false; uploadError := None |}.

Definition setImages v s :=
  {| images := v; imageSessionId := imageSessionId s; uploading := uploading s;
     detectedKeys := detectedKeys s; showDetectedKeys := showDetectedKeys s;
     uploadError := uploadError s |}.
Definition setImageSessionId v s :=
  {| images := images s; imageSessionId := v; uploading := uploading s;
     detectedKeys := detectedKeys s; showDetectedKeys := showDetectedKeys s;
     uploadError := uploadError s |}.
Definition setUploading v s :=
  {| images := images s; imageSessionId := imageSessionId s; uploading := v;
     detectedKeys := detectedKeys s; showDetectedKeys := showDetectedKeys s;
     uploadError := uploadError s |}.
Definition setDetectedJiraKeys v s :=
  {| images := images s; imageSessionId := imageSessionId s; uploading := uploading s;
     detectedKeys := v; showDetectedKeys := showDetectedKeys s;
     uploadError := uploadError s |}.
Definition setShowDetectedKeys v s :=
  {| images := images s; imageSessionId := imageSessionId s; uploading := uploading s;
     detectedKeys := detectedKeys s; showDetectedKeys := v;
     uploadError := uploadError s |}.
Definition setUploadError v s :=
  {| images := images s; imageSessionId := imageSessionId s; uploading := uploading s;
     detectedKeys := detectedKeys s; showDetectedKeys := showDetectedKeys s;
     uploadError := v |}.

(** One element of [data.images]; an absent field is [None]. *)
Record OcrResult := {
  ocrFilename : option string;
  ocrKeys : option (list string);
  ocrScore : option Z
}.

(** [response.data.data] of a successful upload. *)
Record UploadData := {
  sessionId : option string;
  ocrImages : list OcrResult;            (* [data.images] *)
  allKeys : option (list string)         (* [data.detectedJiraKeys] *)
}.

(** How the [await] of the upload ends: with the response data, or
    in the [catch] branch with [error.response.data.error] if any (a
    response without the [data.images] array ends there as well, with
    no server message, when the [map] callback reads it). *)
Inductive UploadResponse :=
| Uploaded (data : UploadData)
| UploadFailed (serverError : option string).

(** The callback of [uploadedImages.map((img, index) => ...)];
    [r] is [data.images[index]]. *)
Definition annotate (r : option OcrResult) (img : ImageUploader.UploadedImage) : ImagePreview :=
  {| preview := ImageUploader.preview img;
     filename := Js.or_else (r ≫= ocrFilename) (ImageUploader.filename img);
     size := ImageUploader.size img;
     detectedJiraKeys := default [] (r ≫= ocrKeys);
     ocrConfidence :=
       match r ≫= ocrScore with
       | Some c => if c =? 0 then 0 else c
       | None => 0
       end |}.

(** [handleImagesSelected] up to its [await]. *)
Definition handleImagesSelected (uploadedImages : list ImageUploader.UploadedImage)
    (s : State) : State * list Request :=
  let s := setUploading true s in
  let s := setUploadError None s in
  let formData := (fun img => ("images", Blob (ImageUploader.file img))) <$> uploadedImages in
  (s, [Post "/generations/upload-images" (FormData formData)]).

(** [handleImagesSelected] from the [await] on. *)
Definition handleImagesSelected_resume (uploadedImages : list ImageUploader.UploadedImage)
    (r : UploadResponse) (s : State) : State :=
  match r with
  | Uploaded data =>
      let imagePreviews :=
        imap (fun index img => annotate (ocrImages data !! index) img) uploadedImages in
      let s := setImages imagePreviews s in
      let s := setImageSessionId (sessionId data) s in
      let s := setDetectedJiraKeys (default [] (allKeys data)) s in
      let s :=
        match allKeys data with
        | Some ks => if (0 <? length ks)%nat then setShowDetectedKeys true s else s
        | None => s
        end in
      setUploading false s
  | UploadFailed serverError =>
      let s := setUploadError (Some (Js.or_else serverError "Failed to upload images")) s in
      setUploading false s
  end.

Definition releaseUrl (sid : string) : string := "/generations/image-sessions/" +:+ sid.

(** [handleRemoveImage] *)
Definition handleRemoveImage (index : nat) (s : State) : State * list Request :=
  let newImages := Js.filteri (fun _ i => negb (i =? index)%nat) (images s) in
  let s' := setImages newImages s in
  if (length newImages =? 0)%nat then
    let calls :=
      match imageSessionId s with
      | Some sid => if Js.truthy sid then [Delete (releaseUrl sid)] else []
      | None => []
      end in
    let s' := setImageSessionId None s' in
    let s' := setDetectedJiraKeys [] s' in
    let s' := setShowDetectedKeys false s' in
    (s', calls)
  else (s', []).

(** The cleanup function the effect of a render with state [s]
    returns; it closes over that render's [imageSessionId]. *)
Definition cleanup (s : State) : list Request :=
  match imageSessionId s with
  | Some sid => if Js.truthy sid then [Delete (releaseUrl sid)] else []
  | None => []
  end.

(** The effect lists [imageSessionId] as its only dependency: when a
    render commits with another session id, React runs the cleanup of
    the previous render before it installs the new effect. *)
Definition commit (prev next : State) : list Request :=
  if decide (imageSessionId prev = imageSessionId next) then [] else cleanup prev.

(** At unmount React runs the cleanup of the last render. *)
Definition unmount (s : State) : list Request := cleanup s.

(** A click on an image's remove button: the handler, then the commit
    of the render its state updates cause. *)
Definition removeClicked (index : nat) (s : State) : State * list Request :=
  let r := handleRemoveImage index s in
  (r.1, r.2 ++ commit s r.1).

(** [handleJiraKeyClick]: the new issue-key text handed to [onChange],
    and the state. *)
Definition handleJiraKeyClick (jiraKey : string) (s : State) : string * State :=
  (jiraKey, setShowDetectedKeys false s).

(** [imageSessionId || undefined], the argument of [onAnalyze] and
    [onGenerate]. *)
Definition sessionArgument (s : State) : option string :=
  match imageSessionId s with
  | Some sid => if Js.truthy sid then Some sid else None
  | None => None
  end.

(** The [disabled] attributes of the two buttons. *)
Definition analyzeDisabled (value : string) (analyzing generating : bool) : bool :=
  analyzing || negb (Js.truthy (Js.trim value)) || generating.

Definition generateDisabled (value : string) (analyzing generating : bool) : bool :=
  negb (Js.truthy value) || generating || analyzing.

(** The states the component passes through.  An upload is started by
    [ImageUploader] only for a batch that is not empty, and the
    external API answers a successful upload with a session
    identifier that is a non-empty string. *)
Inductive reachable : State -> Prop :=
| reach_initial : reachable initial
| reach_upload_start s imgs :
    reachable s -> imgs <> [] ->
    reachable (handleImagesSelected imgs s).1
| reach_upload_done s imgs r :
    reachable s -> imgs <> [] ->
    (forall data, r = Uploaded data -> Js.truthy_opt (sessionId data) = true) ->
    reachable (handleImagesSelected_resume imgs r s)
| reach_remove s index :
    reachable s -> reachable (handleRemoveImage index s).1
| reach_key_click s k :
    reachable s -> reachable (handleJiraKeyClick k s).2
| reach_dismiss s :
    reachable s -> reachable (setShowDetectedKeys false s).

(** The condition under which the panel of detected keys is rendered. *)
Definition panelVisible (s : State) : bool :=
  showDetectedKeys s && (0 <? length (detectedKeys s))%nat.

(** What happens to a mounted box. *)
Inductive Event :=
| UploadStarted (uploadedImages : list ImageUploader.UploadedImage)
| UploadAnswered (uploadedImages : list ImageUploader.UploadedImage) (r : UploadResponse)
| RemoveClicked (index : nat)
| KeyClicked (jiraKey : string)
| PanelDismissed.

(** The handler of an event, without the commit of its render. *)
Definition handle (e : Event) (s : State) : State * list Request :=
  match e with
  | UploadStarted imgs => handleImagesSelected imgs s
  | UploadAnswered imgs r => (handleImagesSelected_resume imgs r s, [])
  | RemoveClicked index => handleRemoveImage index s
  | KeyClicked k => ((handleJiraKeyClick k s).2, [])
  | PanelDismissed => (setShowDetectedKeys false s, [])
  end.

(** An event: its handler, then the commit of the render that the
    state updates cause. *)
Definition step (e : Event) (s : State) : State * list Request :=
  let r := handle e s in
  (r.1, r.2 ++ commit s r.1).

(** A run of events, with the requests sent along the way. *)
Fixpoint run (es : list Event) (s : State) : State * list Request :=
  match es with
  | [] => (s, [])
  | e :: es' =>
      let r := step e s in
      let r' := run es' r.1 in
      (r'.1, r.2 ++ r'.2)
  end.

(** The life of a box from mount to unmount: every request it sent. *)
Definition lifetime (es : list Event) : list Request :=
  let r := run es initial in
  r.2 ++ unmount r.1.

End UnifiedInputBox.

(** ** [GeneratePage] *)

Module GeneratePage.

(** What a result slot ([prelight], [genResult]) holds once set: the
    body of the response, which the page only renders, or the
    [{ error }] object of the [catch] branch. *)
Inductive Result :=
| Data (body : string)
| Error (message : string).

Record State := {
  issueKey : string;
  prelight : option Result;
  genResult : option Result;
  analyzing : bool;
  generating : bool
}.

Definition initial : State :=
  {| issueKey := ""; prelight := None; genResult := None;
     analyzing := false; generating := false |}.

Definition setIssueKey v s :=
  {| issueKey := v; prelight := prelight s; genResult := genResult s;
     analyzing := analyzing s; generating := generating s |}.
Definition setPrelight v s :=
  {| issueKey := issueKey s; prelight := v; genResult := genResult s;
     analyzing := analyzing s; generating := generating s |}.
Definition setGenResult v s :=
  {| issueKey := issueKey s; prelight := prelight s; genResult := v;
     analyzing := analyzing s; generating := generating s |}.
Definition setAnalyzing v s :=
  {| issueKey := issueKey s; prelight := prelight s; genResult := genResult s;
     analyzing := v; generating := generating s |}.
Definition setGenerating v s :=
  {| issueKey := issueKey s; prelight := prelight s; genResult := genResult s;
     analyzing := analyzing s; generating := v |}.

(** How an [await api.post(...)] ends: [Ok] with the data the handler
    stores, or [Failed] with [err.response.data.error] if any. *)
Inductive Response :=
| Ok (body : string)
| Failed (serverError : option string).

(** The object literal [payload], with the optional session field. *)
Definition payload (s : State) (imageSessionId : option string) : list (string * string) :=
  [("issueKey", Js.trim (issueKey s))]
  ++ match imageSessionId with
     | Some sid => if Js.truthy sid then [("imageSessionId", sid)] else []
     | None => []
     end.

(** [analyze] up to its [await]. *)
Definition analyze (imageSessionId : option string) (s : State) : State * list Request :=
  if negb (Js.truthy (Js.trim (issueKey s))) then (s, [])
  else
    let s' := setAnalyzing true s in
    let s' := setPrelight None s' in
    (s', [Post "/generations/prelight" (Json (payload s imageSessionId))]).

(** [analyze] from the [await] on. *)
Definition analyze_resume (r : Response) (s : State) : State :=
  let s :=
    match r with
    | Ok body => setPrelight (Some (Data body)) s
    | Failed serverError =>
        setPrelight (Some (Error (Js.or_else serverError "Analysis failed"))) s
    end in
  setAnalyzing false s.

(** [performGeneration] up to its [await]. *)
Definition performGeneration (imageSessionId : option string) (s : State)
  : State * list Request :=
  if negb (Js.truthy (Js.trim (issueKey s))) then (s, [])
  else
    let s' := setGenerating true s in
    let s' := setGenResult None s' in
    (s', [Post "/generations/testcases" (Json (payload s imageSessionId))]).

(** [performGeneration] from the [await] on. *)
Definition performGeneration_resume (r : Response) (s : State) : State :=
  let s :=
    match r with
    | Ok body => setGenResult (Some (Data body)) s
    | Failed serverError =>
        setGenResult (Some (Error (Js.or_else serverError "Generation failed"))) s
    end in
  setGenerating false s.

(** The box's [onChange]: [setIssueKey], and the effect with
    dependency [issueKey], which clears the analysis when the render
    that follows has another issue key than the one before; given the
    value already held, [setIssueKey] causes no such render and the
    effect does not run. *)
Definition issueKeyChanged (v : string) (s : State) : State :=
  let s' := setIssueKey v s in
  if String.eqb v (issueKey s) then s' else setPrelight None s'.

(** [handleAnalyze] and [handleGenerate] of the box, wired to the
    page's [analyze] and [performGeneration]. *)
Definition handleAnalyze (box : UnifiedInputBox.State) (s : State) : State * list Request :=
  analyze (UnifiedInputBox.sessionArgument box) s.

Definition handleGenerate (box : UnifiedInputBox.State) (s : State) : State * list Request :=
  performGeneration (UnifiedInputBox.sessionArgument box) s.

End GeneratePage.

(** ** The [GeneratePage] variant built on [CombinedInput] *)

Module DirectUploadPage.

Record State := {
  issueKey : string;
  prelight : option GeneratePage.Result;
  genResult : option GeneratePage.Result;
  analyzing : bool;
  generating : bool;
  uploadedImages : list File.t
}.

(** [handleImagesChange], the [onImagesChange] of its [CombinedInput]:
    the files are stored and a displayed analysis is dropped. *)
Definition handleImagesChange (images : list File.t) (s : State) : State :=
  {| issueKey := issueKey s;
     prelight := match prelight s with Some _ => None | None => prelight s end;
     genResult := genResult s;
     analyzing := analyzing s;
     generating := generating s;
     uploadedImages := images |}.

(** The page after a call of [processFiles] that notified it or not. *)
Definition notify (n : option (list File.t)) (s : State) : State :=
  match n with
  | Some images => handleImagesChange images s
  | None => s
  end.

(** The [disabled] attributes of its two buttons. *)
Definition analyzeDisabled (issueKey : string) (analyzing : bool) : bool :=
  analyzing || negb (Js.truthy (Js.trim issueKey)).

Definition generateDisabled (issueKey : string) (generating : bool) : bool :=
  negb (Js.truthy issueKey) || generating.


Definition setPrelight v s :=
  {| issueKey := issueKey s; prelight := v; genResult := genResult s;
     analyzing := analyzing s; generating := generating s;
     uploadedImages := uploadedImages s |}.
Definition setGenResult v s :=
  {| issueKey := issueKey s; prelight := prelight s; genResult := v;
     analyzing := analyzing s; generating := generating s;
     uploadedImages := uploadedImages s |}.
Definition setAnalyzing v s :=
  {| issueKey := issueKey s; prelight := prelight s; genResult := genResult s;
     analyzing := v; generating := generating s;
     uploadedImages := uploadedImages s |}.
Definition setGenerating v s :=
  {| issueKey := issueKey s; prelight := prelight s; genResult := genResult s;
     analyzing := analyzing s; generating := v;
     uploadedImages := uploadedImages s |}.

(** [analyze] up to its [await]. *)
Definition analyze (s : State) : State * list Request :=
  if negb (Js.truthy (Js.trim (issueKey s))) then (s, [])
  else
    let s' := setAnalyzing true s in
    let s' := setPrelight None s' in
    (s', [Post "/generations/prelight" (Json [("issueKey", Js.trim (issueKey s))])]).

(** [performGeneration] up to its [await]. *)
Definition performGeneration (s : State) : State * list Request :=
  if negb (Js.truthy (Js.trim (issueKey s))) then (s, [])
  else
    let s' := setGenerating true s in
    let s' := setGenResult None s' in
    let formData :=
      [("issueKey", Text (Js.trim (issueKey s)))]
      ++ ((fun image => ("images", Blob image)) <$> uploadedImages s) in
    (s', [Post "/generations/testcases" (FormData formData)]).

(** [performGeneration] from the [await] on. *)
Definition performGeneration_resume (r : GeneratePage.Response) (s : State) : State :=
  let s :=
    match r with
    | GeneratePage.Ok body => setGenResult (Some (GeneratePage.Data body)) s
    | GeneratePage.Failed serverError =>
        setGenResult
          (Some (GeneratePage.Error (Js.or_else serverError "Generation failed"))) s
    end in
  setGenerating false s.

End DirectUploadPage.

(** ** The [api] client's response interceptor *)

Module Api.

(** The auth store: the token and the signed-in user's e-mail. *)
Record Auth := {
  accessToken : option string;
  user : option string
}.

(** Modelled from the spec: the store's [logout] action (the module
    [state/auth] is not part of the sources); the specification says
    that logout clears the stored credentials, token and user. *)
Definition logout (a : Auth) : Auth :=
  {| accessToken := None; user := None |}.

(** [window.location] with the session history: the entry shown and
    the entries before it. *)
Record Window := {
  pathname : string;
  earlier : list string
}.

Definition entries (w : Window) : list string := pathname w :: earlier w.

(** [window.location.replace(url)]: the current entry is replaced.
    This is the window once the navigation has been committed; the
    document that made the call keeps its own pathname for as long as
    it runs (see [sameDocument]). *)
Definition replace (url : string) (w : Window) : Window :=
  {| pathname := url; earlier := earlier w |}.

Inductive Navigation :=
| Replace (url : string)
| Assign (url : string).

(** An axios error; [status] is [error.response?.status]. *)
Record AxiosError := {
  status : option Z;
  serverError : option string
}.

Record World := {
  auth : Auth;
  window : Window;
  navigations : list Navigation
}.

(** The rejection handler of [api.interceptors.response.use]; the
    error it returns is the one the call site's promise rejects with. *)
Definition onRejected (error : AxiosError) (w : World) : World * AxiosError :=
  match status error with
  | Some 401 =>
      let a := logout (auth w) in
      if negb (String.eqb (pathname (window w)) "/login")
         && negb (String.eqb (pathname (window w)) "/register")
      then ({| auth := a; window := replace "/login" (window w);
               navigations := navigations w ++ [Replace "/login"] |}, error)
      else ({| auth := a; window := window w; navigations := navigations w |}, error)
  | _ => (w, error)
  end.

(** The world a handler finds that runs in the document of [before]
    after an earlier handler of that document has left [after]: the
    store and the navigations asked for are as the earlier handler left
    them, while [window.location] still reads as it did, since a
    navigation takes the page away only when the new document is
    loaded. *)
Definition sameDocument (before after : World) : World :=
  {| auth := auth after; window := window before; navigations := navigations after |}.

(** The request interceptor: the [Authorization] header it sets. *)
Definition authorization (a : Auth) : option string :=
  match accessToken a with
  | Some token => if Js.truthy token then Some ("Bearer " +:+ token) else None
  | None => None
  end.

(** What a route guard renders. *)
Inductive Element :=
| Children
| Navigate (to : string) (replace : bool).

(** [PrivateRoute] of the application shell. *)
Definition PrivateRoute (a : Auth) : Element :=
  match accessToken a with
  | Some token => if Js.truthy token then Children else Navigate "/login" true
  | None => Navigate "/login" true
  end.

End Api.

(** ** Sample data and expected states *)

Definition png (n : nat) (bytes : Z) : File.t :=
  File.mk ("shot" +:+ pretty n +:+ ".png") bytes "image/png" n.

Definition MB : Z := 1024 * 1024.

(** A response of the upload API without OCR findings. *)
Definition plainSession (sid : string) : UnifiedInputBox.UploadData :=
  {| UnifiedInputBox.sessionId := Some sid;
     UnifiedInputBox.ocrImages := [];
     UnifiedInputBox.allKeys := None |}.

(** The box after the upload of [fs] was answered with session [sid]. *)
Definition boxWith (fs : list File.t) (sid : string) : UnifiedInputBox.State :=
  UnifiedInputBox.handleImagesSelected_resume (ImageUploader.selected fs)
    (UnifiedInputBox.Uploaded (plainSession sid)) UnifiedInputBox.initial.

Definition uploaderIdle : ImageUploader.State :=
  {| ImageUploader.isDragging := false; ImageUploader.error := None |}.

(** The state of the box once its last image is gone: what the
    specification calls the cleared local state. *)
Definition cleared (s : UnifiedInputBox.State) : UnifiedInputBox.State :=
  {| UnifiedInputBox.images := [];
     UnifiedInputBox.imageSessionId := None;
     UnifiedInputBox.uploading := UnifiedInputBox.uploading s;
     UnifiedInputBox.detectedKeys := [];
     UnifiedInputBox.showDetectedKeys := false;
     UnifiedInputBox.uploadError := UnifiedInputBox.uploadError s |}.

(** ** Notions the later properties are stated with *)

(** [validateFile] lets the file pass. *)
Definition passes (p : CombinedInput.Props) (f : File.t) : bool :=
  match CombinedInput.validateFile p f with
  | Some _ => false
  | None => true
  end.

(** The files of a batch that the loop of [processFiles] pushes: those
    that pass validation and match no attached image. *)
Definition pushed (p : CombinedInput.Props) (imgs : list CombinedInput.UploadedImage)
    (fileArray : list File.t) : list File.t :=
  List.filter (fun f => passes p f && negb (CombinedInput.isDuplicate imgs f)) fileArray.

(** The records for [fs] when the browser has handed out [u] object
    URLs so far. *)
Definition numbered (u : nat) (fs : list File.t) : list CombinedInput.UploadedImage :=
  imap (fun i f => CombinedInput.mkImage f (ObjectURL (u + i)) (File.name f) (File.size f)) fs.

(** Every attached image has an object URL of its own, one of the [u]
    handed out so far. *)
Definition previewsFresh (u : nat) (imgs : list CombinedInput.UploadedImage) : Prop :=
  NoDup (CombinedInput.preview <$> imgs)
  /\ Forall (fun img => exists n, CombinedInput.preview img = ObjectURL n /\ (n < u)%nat) imgs.

(** [g] has the name and the size of [f]. *)
Definition sameKey (f g : File.t) : bool :=
  String.eqb (File.name g) (File.name f) && (File.size g =? File.size f).

(** One more selection, made in the state an earlier one left. *)
Definition select (p : CombinedInput.Props) (o : CombinedInput.Outcome)
    (batch : list File.t) : CombinedInput.Outcome :=
  CombinedInput.processFiles p (CombinedInput.state o) (CombinedInput.created o) batch.

(** A sequence of selections, one batch after the other. *)
Definition selections (p : CombinedInput.Props) (batches : list (list File.t))
    (o : CombinedInput.Outcome) : CombinedInput.Outcome :=
  fold_left (select p) batches o.

(** The session ids that uploads were answered with during a run. *)
Fixpoint issued (es : list UnifiedInputBox.Event) : list string :=
  match es with
  | [] => []
  | UnifiedInputBox.UploadAnswered _ (UnifiedInputBox.Uploaded data) :: es' =>
      match UnifiedInputBox.sessionId data with
      | Some sid => sid :: issued es'
      | None => issued es'
      end
  | _ :: es' => issued es'
  end.

(** * Properties *)

(** ** Strings *)

Lemma trimStart_blank s : Js.blank (Js.trimStart s) = Js.blank s.
Proof.
  induction s as [|c s IH]; simpl; [done|].
  destruct (Js.isWhiteSpace c) eqn:Hc; simpl; rewrite ?Hc; done.
Qed.

Lemma trimEnd_empty s : Js.trimEnd s = "" <-> Js.blank s = true.
Proof.
  induction s as [|c s IH]; simpl; [done|].
  destruct (Js.trimEnd s) eqn:Ht.
  - destruct (Js.isWhiteSpace c); simpl.
    + tauto.
    + split; [discriminate|discriminate].
  - split; [discriminate|].
    intros [_ Hb]%andb_true_iff. apply IH in Hb. discriminate.
Qed.

Lemma trim_empty s : Js.trim s = "" <-> Js.blank s = true.
Proof. unfold Js.trim. rewrite trimEnd_empty, trimStart_blank. done. Qed.

Lemma truthy_true s : Js.truthy s = true <-> s <> "".
Proof. destruct s; simpl; split; congruence. Qed.

Lemma truthy_false s : Js.truthy s = false <-> s = "".
Proof. destruct s; simpl; split; congruence. Qed.

Lemma truthy_trim s : Js.truthy (Js.trim s) = negb (Js.blank s).
Proof.
  destruct (Js.blank s) eqn:Hb; simpl.
  - apply truthy_false, trim_empty, Hb.
  - apply truthy_true. intros Ht%trim_empty. congruence.
Qed.

Lemma includes_true xs x : Js.includes xs x = true <-> x ∈ xs.
Proof.
  unfold Js.includes. rewrite existsb_exists. split.
  - intros (y & Hy & ->%String.eqb_eq). by apply list_elem_of_In.
  - intros Hx. exists x. split; [by apply list_elem_of_In | apply String.eqb_refl].
Qed.

(** Filtering out one index of a one-element array. *)
Lemma filteri_singleton {A} (x : A) :
  Js.filteri (fun _ i => negb (i =? 0)%nat) [x] = [].
Proof. reflexivity. Qed.

Lemma filter_from_length {A} (p : A -> nat -> bool) k (xs : list A) :
  (length (Js.filter_from p k xs) <= length xs)%nat.
Proof.
  revert k. induction xs as [|x xs IH]; intros k; simpl; [lia|].
  destruct (p x k); simpl; specialize (IH (S k)); lia.
Qed.

(** ** The validator of [CombinedInput] *)

Section Validator.
Import CombinedInput.
Variable p : Props.

Lemma typeMessage_truthy : Js.truthy typeMessage = true.
Proof. reflexivity. Qed.

Lemma sizeMessage_truthy : Js.truthy (sizeMessage p) = true.
Proof. reflexivity. Qed.

Lemma countMessage_truthy : Js.truthy (countMessage p) = true.
Proof. reflexivity. Qed.

Lemma validateFile_truthy f e : validateFile p f = Some e -> Js.truthy e = true.
Proof.
  unfold validateFile. intros H.
  destruct (negb _); [by inversion H|].
  destruct (_ >? _); by inversion H.
Qed.

Lemma validateFile_oversized f :
  File.size f > maxSizeBytes p ->
  validateFile p f = Some typeMessage \/ validateFile p f = Some (sizeMessage p).
Proof.
  intros Hsz. unfold validateFile.
  destruct (negb _); [by left|]. right.
  destruct (Z.gtb_spec (File.size f) (maxSizeBytes p)); [done|lia].
Qed.

Lemma validateFile_allowed f e :
  Js.includes allowedTypes (File.type f) = true ->
  validateFile p f = Some e -> e = sizeMessage p.
Proof.
  unfold validateFile. intros -> H. simpl in H.
  destruct (_ >? _); by inversion H.
Qed.

Variable imgs : list UploadedImage.

(** A file that fails validation leaves a message behind, whatever
    comes after it in the batch. *)
Lemma visit_keeps_error l f :
  Js.truthy (errorMessage l) = true -> Js.truthy (errorMessage (visit p imgs l f)) = true.
Proof.
  intros Hl. unfold visit, collect.
  destruct (validateFile p f) as [e|] eqn:Hv.
  - pose proof (validateFile_truthy _ _ Hv) as He. rewrite He. exact He.
  - destruct (isDuplicate imgs f); done.
Qed.

Lemma fold_keeps_error fs l :
  Js.truthy (errorMessage l) = true ->
  Js.truthy (errorMessage (fold_left (visit p imgs) fs l)) = true.
Proof.
  revert l. induction fs as [|f fs IH]; intros l Hl; simpl; [done|].
  apply IH, visit_keeps_error, Hl.
Qed.

Lemma fold_rejects fs f l :
  f ∈ fs -> is_Some (validateFile p f) ->
  Js.truthy (errorMessage (fold_left (visit p imgs) fs l)) = true.
Proof.
  revert l. induction fs as [|g fs IH]; intros l Hin Hv; [by inversion Hin|].
  simpl. apply elem_of_cons in Hin as [<-|Hin].
  - apply fold_keeps_error. unfold visit.
    destruct Hv as [e He]. pose proof (validateFile_truthy _ _ He) as Ht.
    rewrite He, Ht. exact Ht.
  - by apply IH.
Qed.

(** The message a batch leaves behind is the one it started with or
    the message of one of its files. *)
Lemma fold_message fs l :
  errorMessage (fold_left (visit p imgs) fs l) = errorMessage l
  \/ exists f, f ∈ fs /\ validateFile p f = Some (errorMessage (fold_left (visit p imgs) fs l)).
Proof.
  revert l. induction fs as [|g fs IH]; intros l; simpl; [by left|].
  destruct (IH (visit p imgs l g)) as [Heq|(f & Hf & Hv)].
  - rewrite Heq. unfold visit, collect.
    destruct (validateFile p g) as [e|] eqn:Hg.
    + rewrite (validateFile_truthy _ _ Hg). simpl.
      right. exists g. split; [by left|done].
    + left. destruct (isDuplicate imgs g); done.
  - right. exists f. split; [by right|done].
Qed.

(** A batch of valid files: the loop keeps those that match no
    attached image, each with a fresh object URL. *)
Lemma fold_valid fs l :
  Forall (fun f => validateFile p f = None) fs ->
  errorMessage (fold_left (visit p imgs) fs l) = errorMessage l.
Proof.
  revert l. induction fs as [|g fs IH]; intros l Hall; simpl; [done|].
  inversion Hall as [|? ? Hg Hfs]; subst.
  rewrite IH by done. unfold visit, collect. rewrite Hg.
  destruct (isDuplicate imgs g); done.
Qed.

End Validator.

(** ** Worked examples *)

Example trim_ex : Js.trim "  SDETPRO-123 " = "SDETPRO-123".
Proof. reflexivity. Qed.

Example count_msg_ex :
  CombinedInput.countMessage CombinedInput.defaults = "Maximum 5 images allowed.".
Proof. reflexivity. Qed.

Example size_msg_ex :
  CombinedInput.sizeMessage CombinedInput.defaults = "File size must be less than 10MB.".
Proof. reflexivity. Qed.

Example type_msg_ex :
  CombinedInput.typeMessage =
  "Invalid file type. Only image/jpeg, image/jpg, image/png, image/gif, image/webp are allowed.".
Proof. reflexivity. Qed.

Example accept_two_ex :
  let r := CombinedInput.processFiles CombinedInput.defaults CombinedInput.initial 0%nat
             [png 1 100; png 2 200] in
  CombinedInput.notified r = Some [png 1 100; png 2 200]
  /\ CombinedInput.preview <$> CombinedInput.images (CombinedInput.state r)
     = [ObjectURL 0; ObjectURL 1]
  /\ CombinedInput.created r = 2%nat.
Proof. vm_compute. done. Qed.

(** ** The count limit *)

(** C2, as amended.  The validators that keep the list of attached
    images ([CombinedInput], [ImageUpload]) reject a batch as a whole
    when the attached images and the batch together exceed [maxImages]:
    the list stays as it was, no preview is created, the parent is not
    notified, and the message is "Maximum N images allowed.".
    [ImageUploader] keeps no list: it rejects a batch, with the same
    kind of message, when the image files of the batch alone exceed
    [maxFiles]. *)
Theorem count_limit_rejects_batch :
  (forall p s u fileArray,
     Z.of_nat (length (CombinedInput.images s)) + Z.of_nat (length fileArray)
       > CombinedInput.maxImages p ->
     ImageUpload.processFiles p s u fileArray = CombinedInput.processFiles p s u fileArray
     /\ CombinedInput.processFiles p s u fileArray
        = {| CombinedInput.state := CombinedInput.setError (CombinedInput.countMessage p) s;
             CombinedInput.created := u;
             CombinedInput.notified := None |}
     /\ CombinedInput.images (CombinedInput.state (CombinedInput.processFiles p s u fileArray))
        = CombinedInput.images s)
  /\ CombinedInput.countMessage CombinedInput.defaults = "Maximum 5 images allowed."
  /\ (forall p s fileArray,
        0 <= ImageUploader.maxFiles p ->
        Z.of_nat (length (List.filter ImageUploader.isImage fileArray))
          > ImageUploader.maxFiles p ->
        ImageUploader.processFiles p s fileArray
        = (ImageUploader.setError (Some (ImageUploader.countMessage p))
             (ImageUploader.setError None s), None))
  /\ ImageUploader.countMessage ImageUploader.defaults = "Maximum 5 images allowed".
Proof.
  split; [|split; [reflexivity|split; [|reflexivity]]].
  - intros p s u fs Hgt.
    assert (CombinedInput.processFiles p s u fs
            = {| CombinedInput.state := CombinedInput.setError (CombinedInput.countMessage p) s;
                 CombinedInput.created := u;
                 CombinedInput.notified := None |}) as Heq.
    { unfold CombinedInput.processFiles.
      destruct (Z.gtb_spec (Z.of_nat (length (CombinedInput.images s)) + Z.of_nat (length fs))
                  (CombinedInput.maxImages p)); [done|lia]. }
    split; [reflexivity|]. split; [exact Heq|]. rewrite Heq. reflexivity.
  - intros p s fs Hmax Hgt. unfold ImageUploader.processFiles.
    destruct (Nat.eqb_spec (length (List.filter ImageUploader.isImage fs)) 0) as [H0|_].
    + rewrite H0 in Hgt. simpl in Hgt. lia.
    + destruct (Z.gtb_spec (Z.of_nat (length (List.filter ImageUploader.isImage fs)))
                  (ImageUploader.maxFiles p)); [done|lia].
Qed.

(** Five images are attached and one more is selected. *)
Lemma count_limit_rejects_batch_witness :
  let s := CombinedInput.state
             (CombinedInput.processFiles CombinedInput.defaults CombinedInput.initial 0%nat
                [png 1 10; png 2 10; png 3 10; png 4 10; png 5 10]) in
  length (CombinedInput.images s) = 5%nat
  /\ CombinedInput.images
       (CombinedInput.state (CombinedInput.processFiles CombinedInput.defaults s 5 [png 6 10]))
     = CombinedInput.images s
  /\ ImageUploader.processFiles ImageUploader.defaults uploaderIdle
       [png 1 10; png 2 10; png 3 10; png 4 10; png 5 10; png 6 10]
     = (ImageUploader.setError (Some "Maximum 5 images allowed") uploaderIdle, None).
Proof.
  split; [reflexivity|]. split.
  - apply (proj1 count_limit_rejects_batch). vm_compute. reflexivity.
  - apply (proj1 (proj2 (proj2 count_limit_rejects_batch))
             ImageUploader.defaults uploaderIdle); vm_compute; [discriminate|reflexivity].
Defined.

(** C2 as stated fails on [ImageUploader]: three images are attached in
    the box and three more are selected, six in all; the batch passes
    the validator and, once uploaded, its three images are the ones
    attached. *)
Lemma count_limit_counterexample :
  let box := boxWith [png 1 10; png 2 10; png 3 10] "sess-1" in
  let batch := [png 4 10; png 5 10; png 6 10] in
  (Z.of_nat (length (UnifiedInputBox.images box)) + Z.of_nat (length batch)
     >? ImageUploader.maxFiles ImageUploader.defaults) = true
  /\ ImageUploader.processFiles ImageUploader.defaults uploaderIdle batch
     = (uploaderIdle, Some batch)
  /\ UnifiedInputBox.filename <$>
       UnifiedInputBox.images
         (UnifiedInputBox.handleImagesSelected_resume (ImageUploader.selected batch)
            (UnifiedInputBox.Uploaded (plainSession "sess-2")) box)
     = ["shot4.png"; "shot5.png"; "shot6.png"].
Proof. vm_compute. done. Qed.

(** ** The size limit *)

Lemma validateFile_message p f e :
  CombinedInput.validateFile p f = Some e ->
  e = CombinedInput.typeMessage \/ e = CombinedInput.sizeMessage p.
Proof.
  unfold CombinedInput.validateFile. intros H.
  destruct (negb _); [left; congruence|].
  destruct (_ >? _); [right; congruence|discriminate].
Qed.

Lemma filter_nonempty {A} (q : A -> bool) (xs : list A) x :
  x ∈ xs -> q x = true -> (0 < length (List.filter q xs))%nat.
Proof.
  intros Hin Hq.
  assert (In x (List.filter q xs)) as Hx.
  { apply filter_In. split; [by apply list_elem_of_In|done]. }
  destruct (List.filter q xs); [destruct Hx|simpl; lia].
Qed.

(** The message a batch leaves behind is the one of its last file that
    fails validation. *)
Lemma fold_last_message p imgs fs l :
  (CombinedInput.errorMessage (fold_left (CombinedInput.visit p imgs) fs l)
     = CombinedInput.errorMessage l
   /\ Forall (fun h => CombinedInput.validateFile p h = None) fs)
  \/ exists before g after,
       fs = before ++ g :: after
       /\ CombinedInput.validateFile p g
          = Some (CombinedInput.errorMessage (fold_left (CombinedInput.visit p imgs) fs l))
       /\ Forall (fun h => CombinedInput.validateFile p h = None) after.
Proof.
  revert l. induction fs as [|f fs IH]; intros l; simpl; [by left|].
  destruct (IH (CombinedInput.visit p imgs l f)) as [[Heq Hall]|(before & g & after & -> & Hg & Hafter)].
  - rewrite Heq. unfold CombinedInput.visit, CombinedInput.collect.
    destruct (CombinedInput.validateFile p f) as [e|] eqn:Hf.
    + rewrite (validateFile_truthy _ _ _ Hf). simpl.
      right. exists [], f, fs. done.
    + left. split; [by destruct (CombinedInput.isDuplicate imgs f)|by constructor].
  - right. exists (f :: before), g, after. done.
Qed.

(** C5, as amended.  A batch holding a file above the size limit is
    rejected as a whole: no file of it is attached, the parent is not
    notified, and a message is shown.  In [CombinedInput] and
    [ImageUpload] the message is the count message when the attached
    images and the batch together exceed the count limit, and otherwise
    the message, type or size, of the last file of the batch that fails
    validation; it is the size message when the batch is within the
    count limit and all its files have an allowed type.  [ImageUploader]
    looks at image files only and shows the count message when they are
    too many, the size message otherwise. *)
Theorem oversized_file_rejects_batch :
  (forall p s u fileArray f,
     f ∈ fileArray ->
     File.size f > CombinedInput.maxSizeBytes p ->
     let r := CombinedInput.processFiles p s u fileArray in
     CombinedInput.images (CombinedInput.state r) = CombinedInput.images s
     /\ CombinedInput.notified r = None
     /\ Js.truthy (CombinedInput.error (CombinedInput.state r)) = true
     /\ (CombinedInput.error (CombinedInput.state r) = CombinedInput.countMessage p
         \/ CombinedInput.error (CombinedInput.state r) = CombinedInput.typeMessage
         \/ CombinedInput.error (CombinedInput.state r) = CombinedInput.sizeMessage p)
     /\ (Z.of_nat (length (CombinedInput.images s)) + Z.of_nat (length fileArray)
           <= CombinedInput.maxImages p ->
         Forall (fun g => File.type g ∈ CombinedInput.allowedTypes) fileArray ->
         CombinedInput.error (CombinedInput.state r) = CombinedInput.sizeMessage p)
     /\ (Z.of_nat (length (CombinedInput.images s)) + Z.of_nat (length fileArray)
           > CombinedInput.maxImages p ->
         CombinedInput.error (CombinedInput.state r) = CombinedInput.countMessage p)
     /\ (Z.of_nat (length (CombinedInput.images s)) + Z.of_nat (length fileArray)
           <= CombinedInput.maxImages p ->
         exists before g after,
           fileArray = before ++ g :: after
           /\ CombinedInput.validateFile p g = Some (CombinedInput.error (CombinedInput.state r))
           /\ (CombinedInput.error (CombinedInput.state r) = CombinedInput.typeMessage
               \/ CombinedInput.error (CombinedInput.state r) = CombinedInput.sizeMessage p)
           /\ Forall (fun h => CombinedInput.validateFile p h = None) after))
  /\ CombinedInput.maxSizeBytes CombinedInput.defaults = 10485760
  /\ CombinedInput.sizeMessage CombinedInput.defaults = "File size must be less than 10MB."
  /\ (forall p s fileArray f,
        f ∈ fileArray ->
        ImageUploader.isImage f = true ->
        File.size f > ImageUploader.maxSizeBytes p ->
        let r := ImageUploader.processFiles p s fileArray in
        r.2 = None
        /\ (ImageUploader.error r.1 = Some (ImageUploader.countMessage p)
            \/ ImageUploader.error r.1 = Some (ImageUploader.sizeMessage p))
        /\ (Z.of_nat (length (List.filter ImageUploader.isImage fileArray))
              <= ImageUploader.maxFiles p ->
            ImageUploader.error r.1 = Some (ImageUploader.sizeMessage p))
        /\ (Z.of_nat (length (List.filter ImageUploader.isImage fileArray))
              > ImageUploader.maxFiles p ->
            ImageUploader.error r.1 = Some (ImageUploader.countMessage p)))
  /\ ImageUploader.maxSizeBytes ImageUploader.defaults = 10485760
  /\ ImageUploader.sizeMessage ImageUploader.defaults = "Some files exceed 10MB limit".
Proof.
  split; [|split; [reflexivity|split; [reflexivity|split; [|split; reflexivity]]]].
  - intros p s u fs f Hin Hsz r. subst r. unfold CombinedInput.processFiles.
    destruct (Z.gtb_spec (Z.of_nat (length (CombinedInput.images s)) + Z.of_nat (length fs))
                (CombinedInput.maxImages p)) as [Hgt|Hle].
    { simpl. split_and!; [done|done|reflexivity|by left|lia|done|lia]. }
    set (l0 := {| CombinedInput.newImages := []; CombinedInput.errorMessage := "";
                  CombinedInput.urls := u |}).
    set (l := fold_left _ fs l0).
    assert (Js.truthy (CombinedInput.errorMessage l) = true) as Ht.
    { apply fold_rejects with f; [done|].
      destruct (validateFile_oversized p f Hsz) as [-> | ->]; eauto. }
    rewrite Ht. simpl.
    destruct (fold_last_message p (CombinedInput.images s) fs l0)
      as [[Hinit _]|(before & g & after & Hsplit & Hv & Hafter)];
      fold l in Hinit || fold l in Hv.
    { simpl in Hinit. rewrite Hinit in Ht. discriminate. }
    pose proof (validateFile_message _ _ _ Hv) as Hmsg.
    split_and!; [done|done|done| | |lia|].
    + destruct Hmsg; auto.
    + intros _ Hall. rewrite Forall_forall in Hall.
      apply (validateFile_allowed p g); [|done].
      apply includes_true, Hall. rewrite Hsplit. apply elem_of_app. right. left.
    + intros _. by exists before, g, after.
  - intros p s fs f Hin Himg Hsz r. subst r. unfold ImageUploader.processFiles.
    pose proof (filter_nonempty _ _ _ Hin Himg) as Hne.
    destruct (Nat.eqb_spec (length (List.filter ImageUploader.isImage fs)) 0) as [H0|_]; [lia|].
    destruct (Z.gtb_spec (Z.of_nat (length (List.filter ImageUploader.isImage fs)))
                (ImageUploader.maxFiles p)) as [Hgt|Hle].
    { simpl. split_and!; [done|by left|lia|done]. }
    assert (0 < length (List.filter (ImageUploader.oversized p)
                          (List.filter ImageUploader.isImage fs)))%nat as Hov.
    { apply filter_nonempty with f.
      - apply list_elem_of_In, filter_In. split; [by apply list_elem_of_In|done].
      - unfold ImageUploader.oversized.
        destruct (Z.gtb_spec (File.size f) (ImageUploader.maxSizeBytes p)); [done|lia]. }
    destruct (Nat.ltb_spec 0 (length (List.filter (ImageUploader.oversized p)
                                        (List.filter ImageUploader.isImage fs)))) as [_|Hge]; [|lia].
    simpl. split_and!; [done|by right|done|lia].
Qed.

(** An 11 MB screenshot next to a small one. *)
Lemma oversized_file_rejects_batch_witness :
  let batch := [png 1 100; png 2 (11 * MB)] in
  let r := CombinedInput.processFiles CombinedInput.defaults CombinedInput.initial 0 batch in
  CombinedInput.images (CombinedInput.state r) = []
  /\ CombinedInput.error (CombinedInput.state r) = "File size must be less than 10MB."
  /\ (ImageUploader.processFiles ImageUploader.defaults uploaderIdle batch).2 = None.
Proof.
  assert (png 2 (11 * MB) ∈ [png 1 100; png 2 (11 * MB)]) as Hin by (right; left).
  split; [|split].
  - apply (proj1 oversized_file_rejects_batch CombinedInput.defaults CombinedInput.initial 0%nat
             _ (png 2 (11 * MB)) Hin). reflexivity.
  - apply (proj1 oversized_file_rejects_batch CombinedInput.defaults CombinedInput.initial 0%nat
             _ (png 2 (11 * MB)) Hin); [reflexivity|vm_compute; discriminate|].
    repeat constructor.
  - apply (proj1 (proj2 (proj2 (proj2 oversized_file_rejects_batch)))
             ImageUploader.defaults uploaderIdle _ (png 2 (11 * MB)) Hin); reflexivity.
Defined.

(** C5 as stated fails on the message: a batch of six with an 11 MB
    file is turned down with the count message, and an oversized file
    followed by a text file with the type message. *)
Lemma oversized_file_counterexample :
  let big := png 1 (11 * MB) in
  let six := [big; png 2 10; png 3 10; png 4 10; png 5 10; png 6 10] in
  let notes := File.mk "notes.txt" 10 "text/plain" 7 in
  (File.size big >? CombinedInput.maxSizeBytes CombinedInput.defaults) = true
  /\ CombinedInput.error
       (CombinedInput.state
          (CombinedInput.processFiles CombinedInput.defaults CombinedInput.initial 0 six))
     = "Maximum 5 images allowed."
  /\ CombinedInput.error
       (CombinedInput.state
          (CombinedInput.processFiles CombinedInput.defaults CombinedInput.initial 0 [big; notes]))
     = "Invalid file type. Only image/jpeg, image/jpg, image/png, image/gif, image/webp are allowed."
  /\ ImageUploader.error
       (ImageUploader.processFiles ImageUploader.defaults uploaderIdle six).1
     = Some "Maximum 5 images allowed".
Proof. vm_compute. done. Qed.

(** ** Duplicates *)

Section Duplicates.
Import CombinedInput.
Variable p : Props.

Lemma sameFile_ext f g img :
  File.name f = File.name g -> File.size f = File.size g ->
  sameFile f img = sameFile g img.
Proof. unfold sameFile. by intros -> ->. Qed.

Lemma isDuplicate_ext f g imgs :
  File.name f = File.name g -> File.size f = File.size g ->
  isDuplicate imgs f = isDuplicate imgs g.
Proof.
  intros Hn Hs. unfold isDuplicate. induction imgs as [|img imgs IH]; simpl; [done|].
  by rewrite IH, (sameFile_ext f g).
Qed.

Lemma sameFile_refl f v : sameFile f (mkImage f v (File.name f) (File.size f)) = true.
Proof. unfold sameFile. simpl. by rewrite String.eqb_refl, Z.eqb_refl. Qed.

Lemma isDuplicate_app imgs imgs' f :
  isDuplicate (imgs ++ imgs') f = isDuplicate imgs f || isDuplicate imgs' f.
Proof. apply existsb_app. Qed.

Lemma filter_none imgs f :
  isDuplicate imgs f = false -> List.filter (sameFile f) imgs = [].
Proof.
  unfold isDuplicate. induction imgs as [|img imgs IH]; simpl; [done|].
  intros [-> H]%orb_false_iff. by apply IH.
Qed.

(** A single file that matches an attached image: nothing is pushed
    and no object URL is created. *)
Lemma processFiles_duplicate s u f :
  isDuplicate (images s) f = true ->
  processFiles p s u [f] =
    if Z.of_nat (length (images s)) + Z.of_nat 1 >? maxImages p
    then {| state := setError (countMessage p) s; created := u; notified := None |}
    else match validateFile p f with
         | Some e => {| state := setError e s; created := u; notified := None |}
         | None => {| state := setError "" (setImages (images s) s);
                      created := u;
                      notified := Some (file <$> images s) |}
         end.
Proof.
  intros Hdup. unfold processFiles. simpl length.
  destruct (_ >? _); [done|].
  simpl. unfold visit, collect.
  destruct (validateFile p f) as [e|] eqn:Hv.
  - rewrite (validateFile_truthy _ _ _ Hv). simpl.
    by rewrite (validateFile_truthy _ _ _ Hv).
  - rewrite Hdup. simpl. by rewrite app_nil_r.
Qed.

(** A single valid file that matches no attached image is attached,
    with a fresh preview. *)
Lemma processFiles_fresh s u f :
  Z.of_nat (length (images s)) + 1 <= maxImages p ->
  validateFile p f = None ->
  isDuplicate (images s) f = false ->
  processFiles p s u [f] =
    let img := mkImage f (ObjectURL u) (File.name f) (File.size f) in
    {| state := setError "" (setImages (images s ++ [img]) s);
       created := S u;
       notified := Some (file <$> images s ++ [img]) |}.
Proof.
  intros Hle Hv Hdup. unfold processFiles. simpl length.
  destruct (Z.gtb_spec (Z.of_nat (length (images s)) + Z.of_nat 1) (maxImages p)); [lia|].
  simpl. unfold visit, collect. by rewrite Hv, Hdup.
Qed.

Lemma sameFile_true f img :
  sameFile f img = true ->
  File.name (file img) = File.name f /\ File.size (file img) = File.size f.
Proof.
  unfold sameFile. intros [Hn Hs]%andb_true_iff.
  split; [by apply String.eqb_eq|by apply Z.eqb_eq].
Qed.

(** Among valid files the loop pushes none that matches an attached
    image, wherever the file stands in the batch. *)
Lemma fold_drops_duplicates imgs f fs l :
  isDuplicate imgs f = true ->
  Forall (fun g => validateFile p g = None) fs ->
  List.filter (sameFile f) (newImages (fold_left (visit p imgs) fs l))
  = List.filter (sameFile f) (newImages l).
Proof.
  intros Hdup Hall. revert l.
  induction Hall as [|g fs Hg _ IH]; intros l; simpl; [done|].
  rewrite IH. unfold visit, collect. rewrite Hg.
  destruct (isDuplicate imgs g) eqn:Hd; [done|]. simpl.
  rewrite List.filter_app. simpl.
  destruct (sameFile f _) eqn:Hsame; [|by rewrite app_nil_r].
  apply sameFile_true in Hsame as [Hn Hs]. simpl in Hn, Hs.
  rewrite (isDuplicate_ext g f) in Hd by done. congruence.
Qed.

(** A batch of valid files within the count limit: the images that
    match [f], itself a match of an attached image, stay as many as
    they were, and no message is set. *)
Lemma processFiles_keeps_matches s u f fs :
  isDuplicate (images s) f = true ->
  Forall (fun g => validateFile p g = None) fs ->
  Z.of_nat (length (images s)) + Z.of_nat (length fs) <= maxImages p ->
  let r := processFiles p s u fs in
  error (state r) = ""
  /\ is_Some (notified r)
  /\ List.filter (sameFile f) (images (state r)) = List.filter (sameFile f) (images s).
Proof.
  intros Hdup Hall Hroom r. subst r. unfold processFiles.
  destruct (Z.gtb_spec (Z.of_nat (length (images s)) + Z.of_nat (length fs)) (maxImages p));
    [lia|].
  rewrite fold_valid by done. simpl. split_and!; [done|by eexists|].
  rewrite List.filter_app, fold_drops_duplicates by done. simpl. apply app_nil_r.
Qed.

End Duplicates.

(** C3 as stated fails inside one batch and at the count limit: two
    files of one name and size dropped together are both attached, and
    with five images attached the re-selection of one of them is
    answered with the count message. *)
Lemma same_batch_duplicate_counterexample :
  let f := png 1 100 in
  let g := File.mk "shot1.png" 100 "image/png" 2 in
  let r := CombinedInput.processFiles CombinedInput.defaults CombinedInput.initial 0 [f; g] in
  let full := CombinedInput.state
                (CombinedInput.processFiles CombinedInput.defaults CombinedInput.initial 0
                   [png 1 100; png 2 10; png 3 10; png 4 10; png 5 10]) in
  (File.name f, File.size f) = (File.name g, File.size g)
  /\ CombinedInput.file <$> CombinedInput.images (CombinedInput.state r) = [f; g]
  /\ length (List.filter (CombinedInput.sameFile f) (CombinedInput.images (CombinedInput.state r)))
     = 2%nat
  /\ CombinedInput.error (CombinedInput.state r) = ""
  /\ length (CombinedInput.images full) = 5%nat
  /\ CombinedInput.error
       (CombinedInput.state (CombinedInput.processFiles CombinedInput.defaults full 5 [f]))
     = "Maximum 5 images allowed."
  /\ (ImageUploader.processFiles ImageUploader.defaults uploaderIdle [f; g]).2 = Some [f; g].
Proof. vm_compute. done. Qed.

(** ** Idempotence of the validator *)

(** C9.  Selecting a file whose name and size match an attached image
    changes neither the attached images nor their previews (no object
    URL is created); the parent page, if it is notified at all, keeps
    the files it held; and selecting the file once more reproduces the
    outcome of the first selection, state, previews and notification
    alike.  [ImageUpload] runs the same code. *)
Theorem validator_idempotent (p : CombinedInput.Props) (s : CombinedInput.State)
    (u : nat) (f : File.t) :
  CombinedInput.isDuplicate (CombinedInput.images s) f = true ->
  let r := CombinedInput.processFiles p s u [f] in
  CombinedInput.images (CombinedInput.state r) = CombinedInput.images s
  /\ CombinedInput.created r = u
  /\ (forall page,
        DirectUploadPage.uploadedImages page = CombinedInput.file <$> CombinedInput.images s ->
        DirectUploadPage.uploadedImages (DirectUploadPage.notify (CombinedInput.notified r) page)
        = DirectUploadPage.uploadedImages page)
  /\ CombinedInput.processFiles p (CombinedInput.state r) (CombinedInput.created r) [f] = r
  /\ ImageUpload.processFiles p (CombinedInput.state r) (CombinedInput.created r) [f] = r.
Proof.
  intros Hdup r.
  assert (CombinedInput.processFiles p (CombinedInput.state r) (CombinedInput.created r) [f] = r
          /\ CombinedInput.images (CombinedInput.state r) = CombinedInput.images s
          /\ CombinedInput.created r = u
          /\ (CombinedInput.notified r = None
              \/ CombinedInput.notified r = Some (CombinedInput.file <$> CombinedInput.images s)))
    as (Hidem & Himg & Hurl & Hnote).
  { subst r. rewrite (processFiles_duplicate p s u f Hdup).
    destruct (Z.gtb_spec (Z.of_nat (length (CombinedInput.images s)) + Z.of_nat 1)
                (CombinedInput.maxImages p)) as [Hgt|Hle].
    - simpl. split_and!; [|done|done|by left].
      rewrite processFiles_duplicate by done. simpl.
      destruct (Z.gtb_spec (Z.of_nat (length (CombinedInput.images s)) + Z.of_nat 1)
                  (CombinedInput.maxImages p)); [done|lia].
    - destruct (CombinedInput.validateFile p f) as [e|] eqn:Hv; simpl.
      + split_and!; [|done|done|by left].
        rewrite processFiles_duplicate by done. simpl.
        destruct (Z.gtb_spec (Z.of_nat (length (CombinedInput.images s)) + Z.of_nat 1)
                    (CombinedInput.maxImages p)); [lia|]. by rewrite Hv.
      + split_and!; [|done|done|by right].
        rewrite processFiles_duplicate by done. simpl.
        destruct (Z.gtb_spec (Z.of_nat (length (CombinedInput.images s)) + Z.of_nat 1)
                    (CombinedInput.maxImages p)); [lia|]. by rewrite Hv. }
  split_and!; try done.
  intros page Hsync. destruct Hnote as [-> | ->]; simpl; done.
Qed.

(** A screenshot is attached and then picked again. *)
Lemma validator_idempotent_witness :
  let s := CombinedInput.state
             (CombinedInput.processFiles CombinedInput.defaults CombinedInput.initial 0
                [png 1 100]) in
  let r := CombinedInput.processFiles CombinedInput.defaults s 1 [png 1 100] in
  CombinedInput.isDuplicate (CombinedInput.images s) (png 1 100) = true
  /\ CombinedInput.processFiles CombinedInput.defaults
       (CombinedInput.state r) (CombinedInput.created r) [png 1 100] = r.
Proof.
  split; [reflexivity|].
  apply (validator_idempotent CombinedInput.defaults _ 1%nat (png 1 100)). reflexivity.
Defined.

(** ** The upload session of [UnifiedInputBox] *)

(** What [ImageUploader] hands on is never empty: it holds the image
    files of the batch, at most [maxFiles] of them, none above the size
    limit. *)
Lemma uploader_batch p s fileArray s' imageFiles :
  ImageUploader.processFiles p s fileArray = (s', Some imageFiles) ->
  imageFiles = List.filter ImageUploader.isImage fileArray
  /\ imageFiles <> []
  /\ Z.of_nat (length imageFiles) <= ImageUploader.maxFiles p
  /\ List.filter (ImageUploader.oversized p) imageFiles = [].
Proof.
  unfold ImageUploader.processFiles.
  destruct (Nat.eqb_spec (length (List.filter ImageUploader.isImage fileArray)) 0) as [|Hlen];
    [discriminate|].
  destruct (Z.gtb_spec (Z.of_nat (length (List.filter ImageUploader.isImage fileArray)))
              (ImageUploader.maxFiles p)) as [|Hmax]; [discriminate|].
  destruct (Nat.ltb_spec 0 (length (List.filter (ImageUploader.oversized p)
                                      (List.filter ImageUploader.isImage fileArray))))
    as [|Hov]; [discriminate|].
  intros [= _ <-]. split_and!; [done| |done|].
  - intros Hnil. by rewrite Hnil in Hlen.
  - destruct (List.filter (ImageUploader.oversized p) _); [done|simpl in Hov; lia].
Qed.

Section Session.
Import UnifiedInputBox.

Lemma resume_images imgs data s :
  images (handleImagesSelected_resume imgs (Uploaded data) s)
  = imap (fun index img => annotate (ocrImages data !! index) img) imgs.
Proof.
  unfold handleImagesSelected_resume.
  destruct (allKeys data) as [ks|]; [destruct (0 <? length ks)%nat|]; reflexivity.
Qed.

Lemma resume_session imgs data s :
  imageSessionId (handleImagesSelected_resume imgs (Uploaded data) s) = sessionId data.
Proof.
  unfold handleImagesSelected_resume.
  destruct (allKeys data) as [ks|]; [destruct (0 <? length ks)%nat|]; reflexivity.
Qed.

Lemma resume_failed imgs e s :
  images (handleImagesSelected_resume imgs (UploadFailed e) s) = images s
  /\ imageSessionId (handleImagesSelected_resume imgs (UploadFailed e) s) = imageSessionId s.
Proof. split; reflexivity. Qed.

Lemma imap_nonempty {A B} (f : nat -> A -> B) (xs : list A) :
  xs <> [] -> imap f xs <> [].
Proof. destruct xs; [done|discriminate]. Qed.

Lemma remove_kept index s :
  Js.filteri (fun _ i => negb (i =? index)%nat) (images s) <> [] ->
  handleRemoveImage index s
  = (setImages (Js.filteri (fun _ i => negb (i =? index)%nat) (images s)) s, []).
Proof.
  intros Hne. unfold handleRemoveImage.
  destruct (Js.filteri _ (images s)) as [|x xs]; [done|reflexivity].
Qed.

Lemma remove_last index s :
  Js.filteri (fun _ i => negb (i =? index)%nat) (images s) = [] ->
  handleRemoveImage index s = (cleared s, cleanup s).
Proof. intros Hnil. unfold handleRemoveImage. rewrite Hnil. reflexivity. Qed.

(** A session id is held exactly while images are attached. *)
Lemma session_iff_images s :
  reachable s -> Js.truthy_opt (imageSessionId s) = true <-> images s <> [].
Proof.
  induction 1 as [|s imgs _ IH _|s imgs r _ IH Hne Hsid|s index _ IH|s k _ IH|s _ IH].
  - simpl. split; [discriminate|done].
  - exact IH.
  - destruct r as [data|e].
    + rewrite resume_images, resume_session. split.
      * intros _. by apply imap_nonempty.
      * intros _. by apply Hsid.
    + exact IH.
  - destruct (Js.filteri (fun _ i => negb (i =? index)%nat) (images s)) as [|x xs] eqn:Hf.
    + rewrite (remove_last _ _ Hf). simpl. split; [discriminate|done].
    + rewrite remove_kept by (rewrite Hf; discriminate). simpl. rewrite Hf.
      split; [discriminate|]. intros _. apply IH.
      intros Hnil. rewrite Hnil in Hf. discriminate.
  - exact IH.
  - exact IH.
Qed.

End Session.

(** X22.  When the only attached image is removed, the handler
    empties the image list, sets the session id to none and clears the
    detected keys and the suggestion panel; with a session id held it
    issues exactly one release call, which carries that id.  In every
    state the component reaches, a session id is held if and only if at
    least one image is attached (uploads being started for batches that
    are not empty, and the API answering each with a non-empty session
    id). *)
Theorem last_image_handler :
  (forall s img,
     UnifiedInputBox.images s = [img] ->
     (UnifiedInputBox.handleRemoveImage 0 s).1 = cleared s)
  /\ (forall s img sid,
        UnifiedInputBox.images s = [img] ->
        UnifiedInputBox.imageSessionId s = Some sid ->
        sid <> "" ->
        (UnifiedInputBox.handleRemoveImage 0 s).2
          = [Delete ("/generations/image-sessions/" +:+ sid)])
  /\ (forall s,
        UnifiedInputBox.reachable s ->
        Js.truthy_opt (UnifiedInputBox.imageSessionId s) = true
        <-> UnifiedInputBox.images s <> []).
Proof.
  split; [|split; [|exact session_iff_images]].
  - intros s img Himg. by rewrite remove_last by (rewrite Himg; reflexivity).
  - intros s img sid Himg Hsid Hne%truthy_true.
    rewrite remove_last by (rewrite Himg; reflexivity).
    unfold UnifiedInputBox.cleanup. by rewrite Hsid, Hne.
Qed.

(** One screenshot uploaded under session "sess-1", then removed. *)
Lemma last_image_handler_witness :
  let s := boxWith [png 1 100] "sess-1" in
  UnifiedInputBox.reachable s
  /\ (UnifiedInputBox.handleRemoveImage 0 s).1 = cleared s
  /\ (UnifiedInputBox.handleRemoveImage 0 s).2 = [Delete "/generations/image-sessions/sess-1"]
  /\ UnifiedInputBox.images s <> [].
Proof.
  assert (UnifiedInputBox.reachable (boxWith [png 1 100] "sess-1")) as Hr.
  { apply UnifiedInputBox.reach_upload_done; [constructor|discriminate|].
    intros data [= <-]. reflexivity. }
  split; [exact Hr|]. split; [|split].
  - apply (proj1 last_image_handler (boxWith [png 1 100] "sess-1")
             (UnifiedInputBox.annotate None (ImageUploader.loaded (png 1 100)))).
    reflexivity.
  - apply (proj1 (proj2 last_image_handler) (boxWith [png 1 100] "sess-1")
             (UnifiedInputBox.annotate None (ImageUploader.loaded (png 1 100))) "sess-1");
      [reflexivity|reflexivity|discriminate].
  - apply (proj2 (proj2 last_image_handler) _ Hr). reflexivity.
Defined.

(** C1.  The code at the failing input: one image is attached under
    session "sess-1" and its remove button is clicked.  The local state
    is cleared, but the DELETE for that session is sent twice, once by
    the handler and once by the cleanup of the effect, which React runs
    because the session id changed, although the effect is meant for
    the unmount. *)
Lemma last_image_released_twice :
  let s := boxWith [png 1 100] "sess-1" in
  length (UnifiedInputBox.images s) = 1%nat
  /\ UnifiedInputBox.imageSessionId s = Some "sess-1"
  /\ (UnifiedInputBox.removeClicked 0 s).1 = cleared s
  /\ (UnifiedInputBox.handleRemoveImage 0 s).2
     = [Delete "/generations/image-sessions/sess-1"]
  /\ UnifiedInputBox.commit s (UnifiedInputBox.handleRemoveImage 0 s).1
     = [Delete "/generations/image-sessions/sess-1"]
  /\ (UnifiedInputBox.removeClicked 0 s).2
     = [Delete "/generations/image-sessions/sess-1";
        Delete "/generations/image-sessions/sess-1"].
Proof. vm_compute. done. Qed.

(** ** Positional merge of the OCR results *)

(** C4.  The upload request carries the files in the order of the
    local records, and on success record [i] is built from local image
    [i] and server result [i]: the preview and the size are the local
    ones; the filename is the server's (the local one when the server's
    is missing or empty), the detected keys and the confidence are the
    server's (none and 0 when missing). *)
Theorem ocr_merged_by_position (imgs : list ImageUploader.UploadedImage)
    (data : UnifiedInputBox.UploadData) (s0 s : UnifiedInputBox.State)
    (i : nat) (img : ImageUploader.UploadedImage) (r : UnifiedInputBox.OcrResult) :
  imgs !! i = Some img ->
  UnifiedInputBox.ocrImages data !! i = Some r ->
  let s' := UnifiedInputBox.handleImagesSelected_resume imgs (UnifiedInputBox.Uploaded data) s in
  (exists parts,
     (UnifiedInputBox.handleImagesSelected imgs s0).2
       = [Post "/generations/upload-images" (FormData parts)]
     /\ length parts = length imgs
     /\ parts !! i = Some ("images", Blob (ImageUploader.file img)))
  /\ length (UnifiedInputBox.images s') = length imgs
  /\ UnifiedInputBox.images s' !! i
     = Some {| UnifiedInputBox.preview := ImageUploader.preview img;
               UnifiedInputBox.filename :=
                 Js.or_else (UnifiedInputBox.ocrFilename r) (ImageUploader.filename img);
               UnifiedInputBox.size := ImageUploader.size img;
               UnifiedInputBox.detectedJiraKeys := default [] (UnifiedInputBox.ocrKeys r);
               UnifiedInputBox.ocrConfidence := default 0 (UnifiedInputBox.ocrScore r) |}
  /\ (forall name keys score,
        r = {| UnifiedInputBox.ocrFilename := Some name;
               UnifiedInputBox.ocrKeys := Some keys;
               UnifiedInputBox.ocrScore := Some score |} ->
        name <> "" ->
        UnifiedInputBox.images s' !! i
        = Some (UnifiedInputBox.mkPreview (ImageUploader.preview img) name
                  (ImageUploader.size img) keys score)).
Proof.
  intros Himg Hr s'.
  assert (UnifiedInputBox.images s' !! i
          = Some {| UnifiedInputBox.preview := ImageUploader.preview img;
                    UnifiedInputBox.filename :=
                      Js.or_else (UnifiedInputBox.ocrFilename r) (ImageUploader.filename img);
                    UnifiedInputBox.size := ImageUploader.size img;
                    UnifiedInputBox.detectedJiraKeys := default [] (UnifiedInputBox.ocrKeys r);
                    UnifiedInputBox.ocrConfidence := default 0 (UnifiedInputBox.ocrScore r) |})
    as Hi.
  { subst s'. rewrite resume_images, list_lookup_imap, Himg, Hr. simpl.
    unfold UnifiedInputBox.annotate. simpl. do 2 f_equal.
    destruct (UnifiedInputBox.ocrScore r) as [c|]; simpl; [|done].
    destruct (Z.eqb_spec c 0); congruence. }
  split_and!.
  - eexists. split; [reflexivity|]. split.
    + by rewrite length_fmap.
    + by rewrite list_lookup_fmap, Himg.
  - subst s'. rewrite resume_images. by rewrite length_imap.
  - exact Hi.
  - intros name keys score -> Hname%truthy_true. rewrite Hi. simpl. by rewrite Hname.
Qed.

(** Two screenshots; the server reports a key on the second. *)
Lemma ocr_merged_by_position_witness :
  let imgs := ImageUploader.selected [png 1 100; png 2 200] in
  let data :=
    {| UnifiedInputBox.sessionId := Some "sess-1";
       UnifiedInputBox.ocrImages :=
         [ {| UnifiedInputBox.ocrFilename := Some "a.png";
              UnifiedInputBox.ocrKeys := Some [];
              UnifiedInputBox.ocrScore := Some 40 |};
           {| UnifiedInputBox.ocrFilename := Some "b.png";
              UnifiedInputBox.ocrKeys := Some ["ABC-1"];
              UnifiedInputBox.ocrScore := Some 93 |} ];
       UnifiedInputBox.allKeys := Some ["ABC-1"] |} in
  UnifiedInputBox.images
    (UnifiedInputBox.handleImagesSelected_resume imgs (UnifiedInputBox.Uploaded data)
       UnifiedInputBox.initial) !! 1%nat
  = Some (UnifiedInputBox.mkPreview (DataURL 2) "b.png" 200 ["ABC-1"] 93).
Proof.
  intros imgs data.
  pose proof (ocr_merged_by_position imgs data UnifiedInputBox.initial UnifiedInputBox.initial
                1%nat (ImageUploader.loaded (png 2 200))
                {| UnifiedInputBox.ocrFilename := Some "b.png";
                   UnifiedInputBox.ocrKeys := Some ["ABC-1"];
                   UnifiedInputBox.ocrScore := Some 93 |} eq_refl eq_refl) as H.
  destruct H as (_ & _ & _ & H).
  apply (H "b.png" ["ABC-1"] 93 eq_refl). discriminate.
Defined.

(** ** The analyze and generate actions *)

Lemma blank_guard s : negb (Js.truthy (Js.trim s)) = Js.blank s.
Proof. rewrite truthy_trim. apply negb_involutive. Qed.

Lemma trim_nonempty s : Js.trim s <> "" -> s <> "".
Proof. intros H ->. by apply H. Qed.

(** C6, as amended.  In [UnifiedInputBox] the analyze button is enabled
    iff the trimmed issue key is non-empty and neither action is in
    flight, and for an issue key that is empty or has a non-empty trim
    the generate button is enabled iff that trim is non-empty and
    neither action is in flight.  In the page variant the analyze button
    is enabled iff the trimmed issue key is non-empty and no analysis is
    in flight, and for such an issue key the generate button is enabled
    iff the trim is non-empty and no generation is in flight. *)
Theorem action_gating (value : string) (analyzing generating : bool) :
  (UnifiedInputBox.analyzeDisabled value analyzing generating = false
   <-> Js.trim value <> "" /\ analyzing = false /\ generating = false)
  /\ (value = "" \/ Js.trim value <> "" ->
      UnifiedInputBox.generateDisabled value analyzing generating = false
      <-> Js.trim value <> "" /\ generating = false /\ analyzing = false)
  /\ (DirectUploadPage.analyzeDisabled value analyzing = false
      <-> Js.trim value <> "" /\ analyzing = false)
  /\ (value = "" \/ Js.trim value <> "" ->
      DirectUploadPage.generateDisabled value generating = false
      <-> Js.trim value <> "" /\ generating = false).
Proof.
  unfold UnifiedInputBox.analyzeDisabled, UnifiedInputBox.generateDisabled,
    DirectUploadPage.analyzeDisabled, DirectUploadPage.generateDisabled.
  split_and!.
  - rewrite !orb_false_iff, negb_false_iff, truthy_true. tauto.
  - intros Hv. rewrite !orb_false_iff, negb_false_iff, truthy_true.
    destruct Hv as [->|Hv]; [simpl; tauto|].
    pose proof (trim_nonempty _ Hv). tauto.
  - rewrite !orb_false_iff, negb_false_iff, truthy_true. tauto.
  - intros Hv. rewrite !orb_false_iff, negb_false_iff, truthy_true.
    destruct Hv as [->|Hv]; [simpl; tauto|].
    pose proof (trim_nonempty _ Hv). tauto.
Qed.

(** C6 as stated fails in [UnifiedInputBox]: with a key entered and a
    generation in flight the analyze button is disabled although no
    analysis runs, and with an analysis in flight the generate button
    is disabled although no generation runs. *)
Lemma action_gating_counterexample :
  Js.trim "ABC-1" = "ABC-1"
  /\ UnifiedInputBox.analyzeDisabled "ABC-1" false true = true
  /\ UnifiedInputBox.generateDisabled "ABC-1" true false = true.
Proof. vm_compute. done. Qed.

(** C7.  With the issue key "SDETPRO-123" and no image attached, the
    box's analyze handler makes the page send one request, a POST to
    /generations/prelight whose body is the object with the single
    field [issueKey]. *)
Theorem analyze_without_images (box : UnifiedInputBox.State) (s : GeneratePage.State) :
  UnifiedInputBox.reachable box ->
  UnifiedInputBox.images box = [] ->
  GeneratePage.issueKey s = "SDETPRO-123" ->
  GeneratePage.handleAnalyze box s
  = (GeneratePage.setPrelight None (GeneratePage.setAnalyzing true s),
     [Post "/generations/prelight" (Json [("issueKey", "SDETPRO-123")])]).
Proof.
  intros Hr Himg Hkey.
  assert (UnifiedInputBox.sessionArgument box = None) as Harg.
  { pose proof (session_iff_images box Hr) as Hiff.
    unfold UnifiedInputBox.sessionArgument.
    destruct (UnifiedInputBox.imageSessionId box) as [sid|]; [|done].
    simpl in Hiff. destruct (Js.truthy sid); [|done].
    exfalso. by apply Hiff. }
  unfold GeneratePage.handleAnalyze, GeneratePage.analyze, GeneratePage.payload.
  by rewrite Harg, Hkey.
Qed.

(** The key typed into a fresh page. *)
Lemma analyze_without_images_witness :
  (GeneratePage.handleAnalyze UnifiedInputBox.initial
     (GeneratePage.issueKeyChanged "SDETPRO-123" GeneratePage.initial)).2
  = [Post "/generations/prelight" (Json [("issueKey", "SDETPRO-123")])].
Proof.
  rewrite (analyze_without_images UnifiedInputBox.initial
             (GeneratePage.issueKeyChanged "SDETPRO-123" GeneratePage.initial)
             UnifiedInputBox.reach_initial eq_refl eq_refl).
  reflexivity.
Defined.

(** C10.  With an issue key that is empty or whitespace only, [analyze]
    and [performGeneration] return at their guard: no request, and the
    page state (results and both flags) as before. *)
Theorem blank_key_is_noop (s : GeneratePage.State) (imageSessionId : option string) :
  Js.blank (GeneratePage.issueKey s) = true ->
  GeneratePage.analyze imageSessionId s = (s, [])
  /\ GeneratePage.performGeneration imageSessionId s = (s, []).
Proof.
  intros Hb. unfold GeneratePage.analyze, GeneratePage.performGeneration.
  by rewrite blank_guard, Hb.
Qed.

(** Three spaces in the box, a session at hand. *)
Lemma blank_key_is_noop_witness :
  let s := GeneratePage.issueKeyChanged "   " GeneratePage.initial in
  GeneratePage.analyze (Some "sess-1") s = (s, [])
  /\ GeneratePage.performGeneration (Some "sess-1") s = (s, []).
Proof.
  apply (blank_key_is_noop (GeneratePage.issueKeyChanged "   " GeneratePage.initial)
           (Some "sess-1")).
  reflexivity.
Defined.

(** ** The 401 interceptor *)

(** C8.  A 401 response logs out (token and user cleared) and hands the
    error on to the caller.  Away from /login and /register it navigates
    once, by [location.replace], to /login: the session history keeps
    its length and its earlier entries.  On /login or /register it does
    not navigate. *)
Theorem unauthorized_response (error : Api.AxiosError) (w : Api.World) :
  Api.status error = Some 401 ->
  let r := Api.onRejected error w in
  Api.auth r.1 = Api.logout (Api.auth w)
  /\ Api.auth r.1 = {| Api.accessToken := None; Api.user := None |}
  /\ Api.authorization (Api.auth r.1) = None
  /\ r.2 = error
  /\ (Api.pathname (Api.window w) <> "/login" ->
      Api.pathname (Api.window w) <> "/register" ->
      Api.navigations r.1 = Api.navigations w ++ [Api.Replace "/login"]
      /\ Api.pathname (Api.window r.1) = "/login"
      /\ Api.earlier (Api.window r.1) = Api.earlier (Api.window w)
      /\ length (Api.entries (Api.window r.1)) = length (Api.entries (Api.window w)))
  /\ (Api.pathname (Api.window w) = "/login" \/ Api.pathname (Api.window w) = "/register" ->
      Api.navigations r.1 = Api.navigations w
      /\ Api.window r.1 = Api.window w).
Proof.
  intros Hst r. subst r. unfold Api.onRejected. rewrite Hst.
  destruct (String.eqb_spec (Api.pathname (Api.window w)) "/login") as [Hl|Hl];
    destruct (String.eqb_spec (Api.pathname (Api.window w)) "/register") as [Hr|Hr];
    simpl; split_and!; try done; tauto.
Qed.

(** A signed-in user on the dashboard, two entries deep. *)
Lemma unauthorized_response_witness :
  let w := {| Api.auth := {| Api.accessToken := Some "token"; Api.user := Some "a@b.c" |};
              Api.window := {| Api.pathname := "/dashboard"; Api.earlier := ["/"] |};
              Api.navigations := [] |} in
  let r := Api.onRejected {| Api.status := Some 401; Api.serverError := None |} w in
  Api.auth r.1 = {| Api.accessToken := None; Api.user := None |}
  /\ Api.entries (Api.window r.1) = ["/login"; "/"].
Proof.
  intros w r.
  pose proof (unauthorized_response {| Api.status := Some 401; Api.serverError := None |} w
                eq_refl) as H.
  destruct H as (_ & H & _). split; [exact H|reflexivity].
Defined.

(** * Further properties of the components *)

(** ** Removing attached images *)

Lemma filter_from_all {A} (index k : nat) (xs : list A) :
  (index < k)%nat ->
  Js.filter_from (fun _ i => negb (i =? index)%nat) k xs = xs.
Proof.
  revert k. induction xs as [|x xs IH]; intros k Hk; simpl; [done|].
  destruct (Nat.eqb_spec k index); [lia|]. simpl. by rewrite IH by lia.
Qed.

Lemma filter_from_delete {A} (index k : nat) (xs : list A) :
  (k <= index)%nat ->
  Js.filter_from (fun _ i => negb (i =? index)%nat) k xs = delete (index - k)%nat xs.
Proof.
  revert k. induction xs as [|x xs IH]; intros k Hk; simpl; [done|].
  destruct (Nat.eqb_spec k index) as [->|Hne]; simpl.
  - rewrite Nat.sub_diag. simpl. apply filter_from_all. lia.
  - rewrite IH by lia. replace (index - k)%nat with (S (index - S k)) by lia. done.
Qed.

(** The index filter of the remove handlers deletes one position. *)
Lemma filteri_delete {A} (index : nat) (xs : list A) :
  Js.filteri (fun _ i => negb (i =? index)%nat) xs = delete index xs.
Proof.
  unfold Js.filteri. rewrite filter_from_delete by lia. by rewrite Nat.sub_0_r.
Qed.

Lemma delete_out_of_range {A} (index : nat) (xs : list A) :
  (length xs <= index)%nat -> delete index xs = xs.
Proof.
  revert index. induction xs as [|x xs IH]; intros [|i] H; simpl in *; try done; [lia|].
  f_equal. apply IH. lia.
Qed.

Lemma removeImage_at (s : CombinedInput.State) (index : nat) img :
  CombinedInput.images s !! index = Some img ->
  CombinedInput.removeImage s index
  = Some (CombinedInput.setError ""
            (CombinedInput.setImages (delete index (CombinedInput.images s)) s),
          CombinedInput.preview img,
          CombinedInput.file <$> delete index (CombinedInput.images s)).
Proof.
  intros Himg. unfold CombinedInput.removeImage. by rewrite Himg, filteri_delete.
Qed.

(** X1.  [removeImage] of [CombinedInput] and [ImageUpload], called
    with the index of an attached image, drops exactly that position,
    hands back that image's preview for revocation, clears the message
    and reports the remaining files in their order; the list is one
    shorter.  Called with an index past the end it throws and nothing
    changes. *)
Theorem remove_image_drops_one (s : CombinedInput.State) (index : nat) :
  (forall img,
     CombinedInput.images s !! index = Some img ->
     CombinedInput.removeImage s index
       = Some (CombinedInput.setError ""
                 (CombinedInput.setImages (delete index (CombinedInput.images s)) s),
               CombinedInput.preview img,
               CombinedInput.file <$> delete index (CombinedInput.images s))
     /\ S (length (delete index (CombinedInput.images s))) = length (CombinedInput.images s))
  /\ ((length (CombinedInput.images s) <= index)%nat ->
      CombinedInput.removeImage s index = None)
  /\ ImageUpload.removeImage s index = CombinedInput.removeImage s index.
Proof.
  split_and!; [| |done].
  - intros img Himg. split; [by apply removeImage_at|].
    rewrite length_delete by eauto.
    apply lookup_lt_Some in Himg. lia.
  - intros Hle. unfold CombinedInput.removeImage.
    by rewrite (lookup_ge_None_2 _ _ Hle).
Qed.

(** The middle one of three screenshots is removed. *)
Lemma remove_image_drops_one_witness :
  let s := CombinedInput.state
             (CombinedInput.processFiles CombinedInput.defaults CombinedInput.initial 0
                [png 1 10; png 2 20; png 3 30]) in
  CombinedInput.removeImage s 1
  = Some (CombinedInput.setError ""
            (CombinedInput.setImages (delete 1%nat (CombinedInput.images s)) s),
          ObjectURL 1,
          [png 1 10; png 3 30]).
Proof.
  intros s.
  apply (proj1 (remove_image_drops_one s 1%nat)
           (CombinedInput.mkImage (png 2 20) (ObjectURL 1) "shot2.png" 20)).
  reflexivity.
Defined.

(** ** What a batch adds *)

Section Batch.
Import CombinedInput.
Variable p : Props.
Variable imgs : list UploadedImage.

Lemma passes_None f : passes p f = true <-> validateFile p f = None.
Proof. unfold passes. destruct (validateFile p f); split; congruence. Qed.

Lemma numbered_cons u f fs :
  numbered u (f :: fs) = mkImage f (ObjectURL u) (File.name f) (File.size f) :: numbered (S u) fs.
Proof.
  unfold numbered. simpl. rewrite Nat.add_0_r. f_equal.
  apply imap_ext. intros i x _. simpl. do 2 f_equal. lia.
Qed.

Lemma numbered_length u fs : length (numbered u fs) = length fs.
Proof. apply length_imap. Qed.

Lemma numbered_files u fs : file <$> numbered u fs = fs.
Proof.
  revert u. induction fs as [|f fs IH]; intros u; [done|].
  rewrite numbered_cons. simpl. by rewrite IH.
Qed.

Lemma numbered_previews u fs :
  preview <$> numbered u fs = ObjectURL <$> seq u (length fs).
Proof.
  revert u. induction fs as [|f fs IH]; intros u; [done|].
  rewrite numbered_cons. simpl. by rewrite IH.
Qed.

(** The loop pushes the passing, unmatched files of the batch in their
    order and creates one object URL for each, whatever else the batch
    holds. *)
Lemma fold_pushes fs l :
  newImages (fold_left (visit p imgs) fs l) = newImages l ++ numbered (urls l) (pushed p imgs fs)
  /\ urls (fold_left (visit p imgs) fs l) = (urls l + length (pushed p imgs fs))%nat.
Proof.
  revert l. induction fs as [|f fs IH]; intros l; simpl.
  { by rewrite app_nil_r, Nat.add_0_r. }
  destruct (IH (visit p imgs l f)) as [-> ->]. clear IH.
  unfold pushed. simpl. fold (pushed p imgs fs).
  unfold visit, collect, passes.
  destruct (validateFile p f) as [e|] eqn:Hv.
  - rewrite (validateFile_truthy _ _ _ Hv). simpl. done.
  - destruct (isDuplicate imgs f); simpl; [done|].
    rewrite numbered_cons, <- app_assoc. simpl. split; [done|lia].
Qed.

Lemma pushed_length fs : (length (pushed p imgs fs) <= length fs)%nat.
Proof. apply List.filter_length_le. Qed.

Lemma pushed_all_pass fs :
  Forall (fun f => validateFile p f = None) fs ->
  pushed p imgs fs = List.filter (fun f => negb (isDuplicate imgs f)) fs.
Proof.
  intros Hall. unfold pushed. apply List.filter_ext_in.
  intros f Hf. rewrite Forall_forall in Hall.
  apply list_elem_of_In, Hall, passes_None in Hf. by rewrite Hf.
Qed.

End Batch.

(** X2.  A batch of files that all pass validation, within the count
    limit, is accepted: the files that match no attached image are
    appended in the order of the batch, each with the next fresh object
    URL, the message is cleared, and the parent receives the files of
    all attached images, old ones first. *)
Theorem valid_batch_appended (p : CombinedInput.Props) (s : CombinedInput.State)
    (u : nat) (fileArray : list File.t) :
  Forall (fun f => CombinedInput.validateFile p f = None) fileArray ->
  Z.of_nat (length (CombinedInput.images s)) + Z.of_nat (length fileArray)
    <= CombinedInput.maxImages p ->
  let new := List.filter (fun f => negb (CombinedInput.isDuplicate (CombinedInput.images s) f))
               fileArray in
  CombinedInput.processFiles p s u fileArray
  = {| CombinedInput.state :=
         CombinedInput.setError ""
           (CombinedInput.setImages (CombinedInput.images s ++ numbered u new) s);
       CombinedInput.created := (u + length new)%nat;
       CombinedInput.notified :=
         Some ((CombinedInput.file <$> CombinedInput.images s) ++ new) |}.
Proof.
  intros Hall Hroom new. unfold CombinedInput.processFiles.
  destruct (Z.gtb_spec (Z.of_nat (length (CombinedInput.images s)) + Z.of_nat (length fileArray))
              (CombinedInput.maxImages p)); [lia|].
  rewrite fold_valid by done.
  destruct (fold_pushes p (CombinedInput.images s) fileArray
              {| CombinedInput.newImages := []; CombinedInput.errorMessage := "";
                 CombinedInput.urls := u |}) as [-> ->].
  simpl. rewrite pushed_all_pass by done. fold new.
  by rewrite fmap_app, numbered_files.
Qed.

(** Two screenshots are attached; one of them and a new one are picked. *)
Lemma valid_batch_appended_witness :
  let s := CombinedInput.state
             (CombinedInput.processFiles CombinedInput.defaults CombinedInput.initial 0
                [png 1 10; png 2 20]) in
  CombinedInput.notified
    (CombinedInput.processFiles CombinedInput.defaults s 2 [png 2 20; png 3 30])
  = Some [png 1 10; png 2 20; png 3 30].
Proof.
  intros s.
  rewrite (valid_batch_appended CombinedInput.defaults s 2%nat [png 2 20; png 3 30]).
  - reflexivity.
  - repeat constructor.
  - vm_compute. discriminate.
Defined.

(** X3.  When a batch within the count limit holds a file that fails
    validation, nothing is attached and the parent is not told, yet an
    object URL has been created for every passing, unmatched file of
    the batch, before or after the failing one, and none of these URLs
    is attached. *)
Theorem rejected_batch_creates_previews (p : CombinedInput.Props) (s : CombinedInput.State)
    (u : nat) (fileArray : list File.t) (f : File.t) :
  Z.of_nat (length (CombinedInput.images s)) + Z.of_nat (length fileArray)
    <= CombinedInput.maxImages p ->
  f ∈ fileArray ->
  passes p f = false ->
  let r := CombinedInput.processFiles p s u fileArray in
  CombinedInput.images (CombinedInput.state r) = CombinedInput.images s
  /\ CombinedInput.notified r = None
  /\ CombinedInput.created r
     = (u + length (pushed p (CombinedInput.images s) fileArray))%nat.
Proof.
  intros Hroom Hin Hf r. subst r. unfold CombinedInput.processFiles.
  destruct (Z.gtb_spec (Z.of_nat (length (CombinedInput.images s)) + Z.of_nat (length fileArray))
              (CombinedInput.maxImages p)); [lia|].
  rewrite (fold_rejects p (CombinedInput.images s) fileArray f).
  - simpl. split_and!; [done|done|].
    by destruct (fold_pushes p (CombinedInput.images s) fileArray
                   {| CombinedInput.newImages := []; CombinedInput.errorMessage := "";
                      CombinedInput.urls := u |}) as [_ ->].
  - done.
  - unfold passes in Hf. destruct (CombinedInput.validateFile p f); [eauto|done].
Qed.

(** A text file between two screenshots: two URLs are created, none is kept. *)
Lemma rejected_batch_creates_previews_witness :
  let r := CombinedInput.processFiles CombinedInput.defaults CombinedInput.initial 0
             [png 1 10; File.mk "notes.txt" 10 "text/plain" 7; png 2 20] in
  CombinedInput.images (CombinedInput.state r) = []
  /\ CombinedInput.created r = 2%nat.
Proof.
  intros r.
  assert (File.mk "notes.txt" 10 "text/plain" 7
            ∈ [png 1 10; File.mk "notes.txt" 10 "text/plain" 7; png 2 20]) as Hin
    by (right; left).
  pose proof (rejected_batch_creates_previews CombinedInput.defaults CombinedInput.initial 0%nat
                [png 1 10; File.mk "notes.txt" 10 "text/plain" 7; png 2 20]
                (File.mk "notes.txt" 10 "text/plain" 7)) as H.
  specialize (H ltac:(vm_compute; discriminate) Hin eq_refl).
  destruct H as (H1 & _ & H3). split; [exact H1|exact H3].
Defined.

(** ** Files selected again *)

Section Reselected.
Import CombinedInput.
Variable p : Props.
Variable f : File.t.

Lemma matches_numbered u fs :
  length (List.filter (sameFile f) (numbered u fs)) = length (List.filter (sameKey f) fs).
Proof.
  revert u. induction fs as [|g fs IH]; intros u; [done|].
  rewrite numbered_cons. simpl.
  change (sameFile f (mkImage g (ObjectURL u) (File.name g) (File.size g))) with (sameKey f g).
  destruct (sameKey f g); simpl; by rewrite IH.
Qed.

Lemma isDuplicate_matches imgs :
  isDuplicate imgs f = true <-> List.filter (sameFile f) imgs <> [].
Proof.
  unfold isDuplicate. induction imgs as [|img imgs IH]; simpl; [done|].
  destruct (sameFile f img); simpl; [done|exact IH].
Qed.

Lemma sameKey_duplicate imgs g :
  sameKey f g = true -> isDuplicate imgs g = isDuplicate imgs f.
Proof.
  unfold sameKey. intros [Hn%String.eqb_eq Hs%Z.eqb_eq]%andb_true_iff.
  by apply isDuplicate_ext.
Qed.

Lemma pushed_matches_attached imgs fs :
  isDuplicate imgs f = true -> List.filter (sameKey f) (pushed p imgs fs) = [].
Proof.
  intros Hdup. unfold pushed. induction fs as [|g fs IH]; simpl; [done|].
  destruct (passes p g && negb (isDuplicate imgs g)) eqn:Hkeep; [|exact IH].
  simpl. destruct (sameKey f g) eqn:Hk; [|exact IH].
  rewrite (sameKey_duplicate imgs g Hk), Hdup, andb_false_r in Hkeep. done.
Qed.

Lemma pushed_matches_le imgs fs :
  (length (List.filter (sameKey f) (pushed p imgs fs))
   <= length (List.filter (sameKey f) fs))%nat.
Proof.
  unfold pushed. induction fs as [|g fs IH]; simpl; [done|].
  destruct (passes p g && negb (isDuplicate imgs g)); simpl;
    destruct (sameKey f g); simpl; lia.
Qed.

Lemma pushed_matches_fresh imgs fs :
  isDuplicate imgs f = false ->
  Forall (fun g => validateFile p g = None) fs ->
  List.filter (sameKey f) (pushed p imgs fs) = List.filter (sameKey f) fs.
Proof.
  intros Hdup Hall. unfold pushed. induction Hall as [|g fs Hg _ IH]; simpl; [done|].
  apply passes_None in Hg. rewrite Hg. simpl.
  destruct (sameKey f g) eqn:Hk.
  - rewrite (sameKey_duplicate imgs g Hk), Hdup. simpl. by rewrite Hk, IH.
  - destruct (isDuplicate imgs g); simpl; by rewrite ?Hk, IH.
Qed.

(** After any call the attached images are those before it, with or
    without the files the loop pushed. *)
Lemma processFiles_images s u fs :
  images (state (processFiles p s u fs)) = images s
  \/ images (state (processFiles p s u fs)) = images s ++ numbered u (pushed p (images s) fs).
Proof.
  unfold processFiles. destruct (_ >? _); [by left|].
  destruct (fold_pushes p (images s) fs
              {| newImages := []; errorMessage := ""; urls := u |}) as [Hnew _].
  destruct (Js.truthy _); [by left|right]. simpl. by rewrite Hnew.
Qed.

(** Whatever the batch, the images that match an attached one stay the
    same. *)
Lemma matches_kept s u fs :
  isDuplicate (images s) f = true ->
  List.filter (sameFile f) (images (state (processFiles p s u fs)))
  = List.filter (sameFile f) (images s).
Proof.
  intros Hdup. destruct (processFiles_images s u fs) as [-> | ->]; [done|].
  rewrite List.filter_app.
  assert (List.filter (sameFile f) (numbered u (pushed p (images s) fs)) = []) as ->.
  { apply length_zero_iff_nil. by rewrite matches_numbered, pushed_matches_attached. }
  apply app_nil_r.
Qed.

Lemma matches_at_most_one s u fs :
  (length (List.filter (sameFile f) (images s)) <= 1)%nat ->
  (length (List.filter (sameKey f) fs) <= 1)%nat ->
  (length (List.filter (sameFile f) (images (state (processFiles p s u fs)))) <= 1)%nat.
Proof.
  intros Hs Hfs. destruct (isDuplicate (images s) f) eqn:Hdup.
  - by rewrite matches_kept.
  - destruct (processFiles_images s u fs) as [-> | ->]; [done|].
    rewrite List.filter_app, length_app, matches_numbered, (filter_none (images s) f Hdup).
    pose proof (pushed_matches_le (images s) fs). simpl. lia.
Qed.

Lemma selections_kept batches o :
  isDuplicate (images (state o)) f = true ->
  List.filter (sameFile f) (images (state (selections p batches o)))
  = List.filter (sameFile f) (images (state o)).
Proof.
  revert o. induction batches as [|b batches IH]; intros o Hdup; [done|].
  unfold selections in *. simpl.
  assert (List.filter (sameFile f) (images (state (select p o b)))
          = List.filter (sameFile f) (images (state o))) as Hstep
    by (by apply matches_kept).
  rewrite IH; [done|].
  apply isDuplicate_matches. rewrite Hstep. by apply isDuplicate_matches.
Qed.

Lemma selections_at_most_one batches o :
  (length (List.filter (sameFile f) (images (state o))) <= 1)%nat ->
  Forall (fun b => (length (List.filter (sameKey f) b) <= 1)%nat) batches ->
  (length (List.filter (sameFile f) (images (state (selections p batches o)))) <= 1)%nat.
Proof.
  intros Ho Hall. revert o Ho.
  induction Hall as [|b batches Hb _ IH]; intros o Ho; [done|].
  unfold selections in *. simpl. apply IH. by apply matches_at_most_one.
Qed.

End Reselected.

(** C3, as amended.  In [CombinedInput] and [ImageUpload], for the name
    and size of any file [f] and every sequence of selections: as long
    as no batch holds two files of that name and size, at most one
    attached image has them; a valid batch within the count limit that
    holds exactly one such file, none being attached, is accepted
    without a message and leaves exactly one attached image of that
    name and size; from then on exactly one attached image has them,
    whatever is selected later; and such files in a later batch that is
    valid and within the count limit are dropped without a message and
    without a preview.  (Two such files inside the batch that first
    brings them are outside this statement, and [ImageUploader]
    compares nothing.) *)
Theorem reselected_file_dropped (p : CombinedInput.Props) (f : File.t) :
  (forall o batches,
     (length (List.filter (CombinedInput.sameFile f)
                (CombinedInput.images (CombinedInput.state o))) <= 1)%nat ->
     Forall (fun b => (length (List.filter (sameKey f) b) <= 1)%nat) batches ->
     (length (List.filter (CombinedInput.sameFile f)
                (CombinedInput.images (CombinedInput.state (selections p batches o))))
      <= 1)%nat)
  /\ (forall s u first,
        CombinedInput.isDuplicate (CombinedInput.images s) f = false ->
        Forall (fun g => CombinedInput.validateFile p g = None) first ->
        Z.of_nat (length (CombinedInput.images s)) + Z.of_nat (length first)
          <= CombinedInput.maxImages p ->
        length (List.filter (sameKey f) first) = 1%nat ->
        let r := CombinedInput.processFiles p s u first in
        CombinedInput.error (CombinedInput.state r) = ""
        /\ length (List.filter (CombinedInput.sameFile f)
                     (CombinedInput.images (CombinedInput.state r))) = 1%nat)
  /\ (forall o batches,
        length (List.filter (CombinedInput.sameFile f)
                  (CombinedInput.images (CombinedInput.state o))) = 1%nat ->
        length (List.filter (CombinedInput.sameFile f)
                  (CombinedInput.images (CombinedInput.state (selections p batches o))))
        = 1%nat)
  /\ (forall s u later,
        CombinedInput.isDuplicate (CombinedInput.images s) f = true ->
        Forall (fun g => CombinedInput.validateFile p g = None) later ->
        Z.of_nat (length (CombinedInput.images s)) + Z.of_nat (length later)
          <= CombinedInput.maxImages p ->
        let r := CombinedInput.processFiles p s u later in
        CombinedInput.error (CombinedInput.state r) = ""
        /\ List.filter (CombinedInput.sameFile f) (CombinedInput.images (CombinedInput.state r))
           = List.filter (CombinedInput.sameFile f) (CombinedInput.images s)
        /\ CombinedInput.created r
           = (u + length (List.filter
                            (fun g => negb (CombinedInput.isDuplicate (CombinedInput.images s) g))
                            later))%nat
        /\ (forall g, sameKey f g = true -> later = [g] ->
              CombinedInput.images (CombinedInput.state r) = CombinedInput.images s
              /\ CombinedInput.created r = u))
  /\ ImageUpload.processFiles = CombinedInput.processFiles.
Proof.
  split_and!; [| | | |done].
  - intros o batches. apply selections_at_most_one.
  - intros s u first Hfresh Hall Hroom Hone r. subst r.
    unfold CombinedInput.processFiles.
    destruct (Z.gtb_spec (Z.of_nat (length (CombinedInput.images s)) + Z.of_nat (length first))
                (CombinedInput.maxImages p)); [lia|].
    rewrite fold_valid by done.
    destruct (fold_pushes p (CombinedInput.images s) first
                {| CombinedInput.newImages := []; CombinedInput.errorMessage := "";
                   CombinedInput.urls := u |}) as [-> _].
    simpl. split; [done|].
    rewrite List.filter_app, length_app, matches_numbered, (filter_none _ _ Hfresh).
    by rewrite (pushed_matches_fresh p f _ _ Hfresh Hall).
  - intros o batches Hone. rewrite selections_kept; [done|].
    apply isDuplicate_matches. intros Hnil. by rewrite Hnil in Hone.
  - intros s u later Hdup Hall Hroom r. subst r.
    assert (CombinedInput.processFiles p s u later
            = {| CombinedInput.state :=
                   CombinedInput.setError ""
                     (CombinedInput.setImages
                        (CombinedInput.images s
                         ++ numbered u (pushed p (CombinedInput.images s) later)) s);
                 CombinedInput.created :=
                   (u + length (pushed p (CombinedInput.images s) later))%nat;
                 CombinedInput.notified :=
                   Some (CombinedInput.file <$>
                           CombinedInput.images s
                           ++ numbered u (pushed p (CombinedInput.images s) later)) |}) as Heq.
    { unfold CombinedInput.processFiles.
      destruct (Z.gtb_spec (Z.of_nat (length (CombinedInput.images s)) + Z.of_nat (length later))
                  (CombinedInput.maxImages p)); [lia|].
      rewrite fold_valid by done.
      by destruct (fold_pushes p (CombinedInput.images s) later
                     {| CombinedInput.newImages := []; CombinedInput.errorMessage := "";
                        CombinedInput.urls := u |}) as [-> ->]. }
    split_and!.
    + by rewrite Heq.
    + by apply matches_kept.
    + rewrite Heq. simpl. by rewrite pushed_all_pass.
    + intros g Hk ->. rewrite Heq. simpl. unfold pushed. simpl.
      inversion Hall as [|? ? Hg _]; subst. apply passes_None in Hg.
      rewrite Hg, (sameKey_duplicate f _ g Hk), Hdup. simpl.
      split; [apply app_nil_r|lia].
Qed.

(** The same screenshot picked twice, one pick after the other. *)
Lemma reselected_file_dropped_witness :
  let r1 := CombinedInput.processFiles CombinedInput.defaults CombinedInput.initial 0
              [png 1 100] in
  let r2 := CombinedInput.processFiles CombinedInput.defaults
              (CombinedInput.state r1) (CombinedInput.created r1) [png 1 100] in
  CombinedInput.isDuplicate (CombinedInput.images CombinedInput.initial) (png 1 100) = false
  /\ length (List.filter (CombinedInput.sameFile (png 1 100))
               (CombinedInput.images (CombinedInput.state r1))) = 1%nat
  /\ CombinedInput.error (CombinedInput.state r2) = ""
  /\ length (List.filter (CombinedInput.sameFile (png 1 100))
               (CombinedInput.images (CombinedInput.state (selections CombinedInput.defaults
                  [[png 1 100]; [png 2 10; png 1 100]] r1)))) = 1%nat.
Proof.
  intros r1 r2.
  destruct (reselected_file_dropped CombinedInput.defaults (png 1 100))
    as (_ & Hfirst & Hstay & Hlater & _).
  pose proof (Hfirst CombinedInput.initial 0%nat [png 1 100] eq_refl
                ltac:(by repeat constructor) ltac:(vm_compute; discriminate) eq_refl)
    as [_ Hone].
  split; [reflexivity|]. split; [exact Hone|]. split.
  - apply (Hlater (CombinedInput.state r1) (CombinedInput.created r1) [png 1 100]);
      [reflexivity|by repeat constructor|vm_compute; discriminate].
  - apply (Hstay r1). exact Hone.
Defined.

(** ** Invariants of the attached images *)

Lemma previewsFresh_mono u v imgs :
  (u <= v)%nat -> previewsFresh u imgs -> previewsFresh v imgs.
Proof.
  intros Huv [Hnd Hall]. split; [done|].
  eapply Forall_impl; [exact Hall|]. intros img (n & Hn & Hlt). exists n. split; [done|lia].
Qed.

Lemma previewsFresh_app u imgs fs :
  previewsFresh u imgs -> previewsFresh (u + length fs) (imgs ++ numbered u fs).
Proof.
  intros [Hnd Hall]. split.
  - rewrite fmap_app, numbered_previews. apply NoDup_app. split_and!.
    + done.
    + intros v Hv Hv'.
      apply list_elem_of_fmap in Hv as (img & -> & Himg).
      rewrite Forall_forall in Hall. destruct (Hall img Himg) as (n & Hn & Hlt).
      rewrite Hn in Hv'. apply list_elem_of_fmap in Hv' as (m & [= ->] & Hm).
      apply elem_of_seq in Hm. lia.
    + apply NoDup_fmap_2; [by intros ?? [= ->]|apply NoDup_seq].
  - apply Forall_app. split.
    + eapply Forall_impl; [exact Hall|]. intros img (n & Hn & Hlt). exists n. split; [done|lia].
    + apply Forall_forall. intros img Himg.
      assert (CombinedInput.preview img ∈ CombinedInput.preview <$> numbered u fs) as Hv
        by (by apply list_elem_of_fmap_2).
      rewrite numbered_previews in Hv. apply list_elem_of_fmap in Hv as (m & -> & Hm).
      apply elem_of_seq in Hm. exists m. split; [done|lia].
Qed.

Lemma previewsFresh_delete u imgs index :
  previewsFresh u imgs -> previewsFresh u (delete index imgs).
Proof.
  intros [Hnd Hall]. split.
  - eapply sublist_NoDup; [exact Hnd|]. apply fmap_sublist, sublist_delete.
  - by apply Forall_delete.
Qed.

(** X4.  Every attached image keeps an object URL of its own: if the
    previews of the attached images are pairwise different and were all
    handed out already, the same holds after any call of the validator,
    whatever the batch, and the browser's count of URLs never goes
    down. *)
Theorem previews_stay_fresh (p : CombinedInput.Props) (s : CombinedInput.State)
    (u : nat) (fileArray : list File.t) :
  previewsFresh u (CombinedInput.images s) ->
  let r := CombinedInput.processFiles p s u fileArray in
  previewsFresh (CombinedInput.created r) (CombinedInput.images (CombinedInput.state r))
  /\ (u <= CombinedInput.created r)%nat.
Proof.
  intros Hfresh r. subst r. unfold CombinedInput.processFiles.
  destruct (Z.of_nat _ + Z.of_nat _ >? _); [simpl; split; [done|lia]|].
  destruct (fold_pushes p (CombinedInput.images s) fileArray
              {| CombinedInput.newImages := []; CombinedInput.errorMessage := "";
                 CombinedInput.urls := u |}) as [Hnew Hurls].
  simpl in Hnew, Hurls.
  destruct (Js.truthy _); simpl; rewrite ?Hnew, Hurls.
  - split; [|lia]. eapply previewsFresh_mono; [|exact Hfresh]. lia.
  - split; [|lia]. by apply previewsFresh_app.
Qed.

(** Two screenshots selected into an empty input. *)
Lemma previews_stay_fresh_witness :
  let r := CombinedInput.processFiles CombinedInput.defaults CombinedInput.initial 0
             [png 1 10; png 2 20] in
  previewsFresh (CombinedInput.created r) (CombinedInput.images (CombinedInput.state r))
  /\ (0 <= CombinedInput.created r)%nat.
Proof.
  apply (previews_stay_fresh CombinedInput.defaults CombinedInput.initial 0%nat
           [png 1 10; png 2 20]).
  split; [constructor|constructor].
Defined.

(** X5.  Removing an image hands back for revocation a preview that no
    remaining image shows, and [clearAllImages] hands back the preview
    of every attached image exactly once; the previews that stay are
    still pairwise different. *)
Theorem revoked_previews_unused (s : CombinedInput.State) (u index : nat)
    (img : CombinedInput.UploadedImage) :
  previewsFresh u (CombinedInput.images s) ->
  CombinedInput.images s !! index = Some img ->
  (exists s' files,
     CombinedInput.removeImage s index = Some (s', CombinedInput.preview img, files)
     /\ (CombinedInput.preview img ∉ (CombinedInput.preview <$> CombinedInput.images s'))
     /\ previewsFresh u (CombinedInput.images s'))
  /\ NoDup (ImageUpload.clearAllImages s).1.2
  /\ (forall v, v ∈ (ImageUpload.clearAllImages s).1.2
                <-> v ∈ (CombinedInput.preview <$> CombinedInput.images s))
  /\ CombinedInput.images (ImageUpload.clearAllImages s).1.1 = [].
Proof.
  intros Hfresh Himg. split_and!; [|by destruct Hfresh|done|done].
  eexists _, _. split; [by apply removeImage_at|]. simpl. split.
  - destruct Hfresh as [Hnd _].
    rewrite <- (take_drop_middle _ _ _ Himg) in Hnd.
    rewrite delete_take_drop.
    rewrite fmap_app in Hnd. simpl in Hnd.
    apply NoDup_app in Hnd as (_ & Hdisj & Hnd').
    apply NoDup_cons in Hnd' as [Hnotin _].
    rewrite fmap_app. intros [Hl|Hr]%elem_of_app; [|done].
    apply (Hdisj _ Hl). left.
  - by apply previewsFresh_delete.
Qed.

(** Of two attached screenshots the first is removed. *)
Lemma revoked_previews_unused_witness :
  let s := CombinedInput.state
             (CombinedInput.processFiles CombinedInput.defaults CombinedInput.initial 0
                [png 1 10; png 2 20]) in
  NoDup (ImageUpload.clearAllImages s).1.2
  /\ CombinedInput.images (ImageUpload.clearAllImages s).1.1 = [].
Proof.
  intros s.
  assert (previewsFresh 2 (CombinedInput.images s)) as Hfresh.
  { apply (previewsFresh_app 0 [] [png 1 10; png 2 20]). split; constructor. }
  destruct (revoked_previews_unused s 2%nat 0%nat
              (CombinedInput.mkImage (png 1 10) (ObjectURL 0) "shot1.png" 10)
              Hfresh eq_refl) as (_ & H2 & _ & H4).
  split; [exact H2|exact H4].
Defined.

(** X6.  The validator never lets the attached images exceed
    [maxImages]: if they are within the limit before a batch is
    dropped, selected or processed, whatever the batch holds, they are
    within it afterwards. *)
Theorem count_never_exceeds_limit (p : CombinedInput.Props) (s : CombinedInput.State)
    (u : nat) (fileArray : list File.t) :
  Z.of_nat (length (CombinedInput.images s)) <= CombinedInput.maxImages p ->
  Z.of_nat (length (CombinedInput.images
                      (CombinedInput.state (CombinedInput.processFiles p s u fileArray))))
    <= CombinedInput.maxImages p
  /\ Z.of_nat (length (CombinedInput.images
                         (CombinedInput.state (CombinedInput.handleDrop p s u fileArray))))
     <= CombinedInput.maxImages p
  /\ Z.of_nat (length (CombinedInput.images
                         (CombinedInput.state (CombinedInput.handleFileInput p s u fileArray))))
     <= CombinedInput.maxImages p.
Proof.
  intros Hle.
  assert (forall s0, CombinedInput.images s0 = CombinedInput.images s ->
            Z.of_nat (length (CombinedInput.images
                                (CombinedInput.state
                                   (CombinedInput.processFiles p s0 u fileArray))))
            <= CombinedInput.maxImages p) as Hproc.
  { intros s0 Hs0. unfold CombinedInput.processFiles. rewrite Hs0.
    destruct (Z.gtb_spec (Z.of_nat (length (CombinedInput.images s))
                          + Z.of_nat (length fileArray)) (CombinedInput.maxImages p));
      [simpl; by rewrite Hs0|].
    destruct (fold_pushes p (CombinedInput.images s) fileArray
                {| CombinedInput.newImages := []; CombinedInput.errorMessage := "";
                   CombinedInput.urls := u |}) as [Hnew _].
    simpl in Hnew.
    destruct (Js.truthy _); simpl; [by rewrite Hs0|].
    rewrite Hnew, length_app, numbered_length.
    pose proof (pushed_length p (CombinedInput.images s) fileArray). lia. }
  split_and!.
  - by apply Hproc.
  - unfold CombinedInput.handleDrop.
    destruct (CombinedInput.disabled p); [done|].
    destruct (0 <? length fileArray)%nat; [by apply Hproc|done].
  - unfold CombinedInput.handleFileInput.
    destruct (CombinedInput.disabled p); [done|].
    destruct (0 <? length fileArray)%nat; [by apply Hproc|done].
Qed.

(** Four screenshots attached, two more dropped. *)
Lemma count_never_exceeds_limit_witness :
  let s := CombinedInput.state
             (CombinedInput.processFiles CombinedInput.defaults CombinedInput.initial 0
                [png 1 10; png 2 10; png 3 10; png 4 10]) in
  Z.of_nat (length (CombinedInput.images
                      (CombinedInput.state
                         (CombinedInput.handleDrop CombinedInput.defaults s 4
                            [png 5 10; png 6 10]))))
    <= 5.
Proof.
  intros s.
  apply (count_never_exceeds_limit CombinedInput.defaults s 4%nat [png 5 10; png 6 10]).
  vm_compute. discriminate.
Defined.

(** ** The page that re-sends the files *)

(** X7.  The page built on [CombinedInput] always holds the files of
    the attached images: if it does before a batch is processed or an
    image is removed, it does after the parent callback of that
    operation has run, or has not been called because the batch was
    rejected. *)
Theorem page_files_in_sync (p : CombinedInput.Props) (s : CombinedInput.State)
    (page : DirectUploadPage.State) (u index : nat) (fileArray : list File.t) :
  DirectUploadPage.uploadedImages page = CombinedInput.file <$> CombinedInput.images s ->
  (let r := CombinedInput.processFiles p s u fileArray in
   DirectUploadPage.uploadedImages (DirectUploadPage.notify (CombinedInput.notified r) page)
   = CombinedInput.file <$> CombinedInput.images (CombinedInput.state r))
  /\ (forall s' v files,
        CombinedInput.removeImage s index = Some (s', v, files) ->
        DirectUploadPage.uploadedImages (DirectUploadPage.handleImagesChange files page)
        = CombinedInput.file <$> CombinedInput.images s').
Proof.
  intros Hsync. split_and!.
  - unfold CombinedInput.processFiles.
    destruct (_ >? _); [done|]. destruct (Js.truthy _); done.
  - intros s' v files. unfold CombinedInput.removeImage.
    destruct (CombinedInput.images s !! index); [|done]. by intros [= <- _ <-].
Qed.

(** A fresh page and a fresh input, one screenshot selected. *)
Lemma page_files_in_sync_witness :
  let page := {| DirectUploadPage.issueKey := "ABC-1"; DirectUploadPage.prelight := None;
                 DirectUploadPage.genResult := None; DirectUploadPage.analyzing := false;
                 DirectUploadPage.generating := false;
                 DirectUploadPage.uploadedImages := [] |} in
  let r := CombinedInput.processFiles CombinedInput.defaults CombinedInput.initial 0
             [png 1 10] in
  DirectUploadPage.uploadedImages (DirectUploadPage.notify (CombinedInput.notified r) page)
  = CombinedInput.file <$> CombinedInput.images (CombinedInput.state r).
Proof.
  intros page r.
  apply (page_files_in_sync CombinedInput.defaults CombinedInput.initial page 0%nat 0%nat
           [png 1 10] eq_refl).
Defined.

(** X8.  On the page built on [CombinedInput], a generation with a
    non-blank issue key sends one multipart request whose parts are the
    trimmed issue key followed by one [images] part per attached file,
    in the order of attachment; an analysis sends the trimmed issue key
    alone, whatever is attached. *)
Theorem generation_carries_attached_files (s : CombinedInput.State)
    (page : DirectUploadPage.State) :
  DirectUploadPage.uploadedImages page = CombinedInput.file <$> CombinedInput.images s ->
  Js.blank (DirectUploadPage.issueKey page) = false ->
  (DirectUploadPage.performGeneration page).2
  = [Post "/generations/testcases"
       (FormData (("issueKey", Text (Js.trim (DirectUploadPage.issueKey page)))
                  :: ((fun img => ("images", Blob (CombinedInput.file img)))
                        <$> CombinedInput.images s)))]
  /\ (DirectUploadPage.analyze page).2
     = [Post "/generations/prelight"
          (Json [("issueKey", Js.trim (DirectUploadPage.issueKey page))])].
Proof.
  intros Hsync Hb.
  unfold DirectUploadPage.performGeneration, DirectUploadPage.analyze.
  rewrite blank_guard, Hb, Hsync. simpl. split; [|done].
  by rewrite <- list_fmap_compose.
Qed.

(** Two screenshots attached, the key typed with a trailing space. *)
Lemma generation_carries_attached_files_witness :
  let r := CombinedInput.processFiles CombinedInput.defaults CombinedInput.initial 0
             [png 1 10; png 2 20] in
  let page := {| DirectUploadPage.issueKey := "ABC-1 "; DirectUploadPage.prelight := None;
                 DirectUploadPage.genResult := None; DirectUploadPage.analyzing := false;
                 DirectUploadPage.generating := false;
                 DirectUploadPage.uploadedImages := [png 1 10; png 2 20] |} in
  (DirectUploadPage.performGeneration page).2
  = [Post "/generations/testcases"
       (FormData [("issueKey", Text "ABC-1");
                  ("images", Blob (png 1 10)); ("images", Blob (png 2 20))])].
Proof.
  intros r page.
  apply (generation_carries_attached_files (CombinedInput.state r) page eq_refl eq_refl).
Defined.

(** ** The decisions of [ImageUploader] *)

Lemma oversized_none p fs :
  List.filter (ImageUploader.oversized p) fs = []
  <-> Forall (fun f => File.size f <= ImageUploader.maxSizeBytes p) fs.
Proof.
  induction fs as [|f fs IH]; simpl; [by split|].
  unfold ImageUploader.oversized at 1.
  destruct (Z.gtb_spec (File.size f) (ImageUploader.maxSizeBytes p)) as [Hgt|Hle].
  - split; [discriminate|]. intros H. inversion H; subst. lia.
  - rewrite IH. split; [by constructor|]. by inversion 1.
Qed.

(** The readers that have fired so far: the records pushed, and the one
    call of [onImagesSelected], made by the reader that completes the
    count. *)
Lemma onloads_calls fs l :
  (ImageUploader.processed l + length fs <= ImageUploader.total l)%nat ->
  (ImageUploader.onloads fs l).2
  = if (ImageUploader.processed l + length fs =? ImageUploader.total l)%nat
       && (0 <? length fs)%nat
    then [ImageUploader.uploadedImages l ++ (ImageUploader.loaded <$> fs)]
    else [].
Proof.
  revert l. induction fs as [|f fs IH]; intros l Hle.
  { cbn. by rewrite andb_false_r. }
  cbn [ImageUploader.onloads].
  set (r := ImageUploader.onload f l).
  assert (ImageUploader.processed r.1 = S (ImageUploader.processed l)
          /\ ImageUploader.total r.1 = ImageUploader.total l
          /\ ImageUploader.uploadedImages r.1
             = ImageUploader.uploadedImages l ++ [ImageUploader.loaded f]
          /\ r.2 = if (S (ImageUploader.processed l) =? ImageUploader.total l)%nat
                   then Some (ImageUploader.uploadedImages l ++ [ImageUploader.loaded f])
                   else None) as (Hp & Ht & Hu & Hr) by done.
  cbn [length] in Hle.
  rewrite IH by (rewrite Hp, Ht; lia).
  rewrite Hp, Ht, Hu, Hr. cbn [snd length fmap list_fmap].
  change (0 <? S (length fs))%nat with true. rewrite andb_true_r.
  destruct (Nat.eqb_spec (S (ImageUploader.processed l)) (ImageUploader.total l)) as [Heq|Hne].
  - assert (fs = []) as -> by (destruct fs; [done|cbn [length] in Hle; lia]).
    cbn [length]. rewrite andb_false_r.
    destruct (Nat.eqb_spec (ImageUploader.processed l + 1) (ImageUploader.total l)); [done|lia].
  - destruct fs as [|g fs]; cbn [length].
    + rewrite andb_false_r.
      destruct (Nat.eqb_spec (ImageUploader.processed l + 1) (ImageUploader.total l)); [lia|done].
    + change (0 <? S (length fs))%nat with true. rewrite andb_true_r.
      replace (S (ImageUploader.processed l) + S (length fs))%nat
        with (ImageUploader.processed l + S (S (length fs)))%nat by lia.
      destruct (_ =? _)%nat; [|done]. by rewrite <- app_assoc.
Qed.

(** X9.  [ImageUploader] passes a selection, and starts a reader for
    each of its image files, exactly when the selection holds an image
    file, at most [maxFiles] of them, none above the size limit; the
    other files are dropped without a message, and the message of an
    earlier rejection is cleared.  [onImagesSelected] is then called
    once, by the last reader to load, with one record per image file in
    the order in which the readers loaded, a permutation of the image
    files; while a reader has not loaded it is not called.  Otherwise
    no reader is started and one of the three messages is set: the one
    for a selection without images first, the count message second, the
    size message last. *)
Theorem uploader_decision (p : ImageUploader.Props) (s : ImageUploader.State)
    (fileArray : list File.t) :
  let imageFiles := List.filter ImageUploader.isImage fileArray in
  let r := ImageUploader.processFiles p s fileArray in
  (r.2 = Some imageFiles /\ ImageUploader.error r.1 = None
   <-> imageFiles <> []
       /\ Z.of_nat (length imageFiles) <= ImageUploader.maxFiles p
       /\ Forall (fun f => File.size f <= ImageUploader.maxSizeBytes p) imageFiles)
  /\ (r.2 = None \/ r.2 = Some imageFiles)
  /\ (r.2 = None ->
      ImageUploader.error r.1
      = Some (if (length imageFiles =? 0)%nat then ImageUploader.noImageMessage
              else if Z.of_nat (length imageFiles) >? ImageUploader.maxFiles p
                   then ImageUploader.countMessage p
                   else ImageUploader.sizeMessage p))
  /\ ImageUploader.isDragging r.1 = ImageUploader.isDragging s
  /\ (forall fired,
        r.2 = Some imageFiles ->
        ((length fired < length imageFiles)%nat ->
         (ImageUploader.onloads fired (ImageUploader.reading imageFiles)).2 = [])
        /\ (fired ≡ₚ imageFiles ->
            (ImageUploader.onloads fired (ImageUploader.reading imageFiles)).2
              = [ImageUploader.loaded <$> fired]
            /\ (ImageUploader.loaded <$> fired) ≡ₚ ImageUploader.selected imageFiles)).
Proof.
  intros imageFiles r.
  assert (forall fired,
            r.2 = Some imageFiles ->
            ((length fired < length imageFiles)%nat ->
             (ImageUploader.onloads fired (ImageUploader.reading imageFiles)).2 = [])
            /\ (fired ≡ₚ imageFiles ->
                (ImageUploader.onloads fired (ImageUploader.reading imageFiles)).2
                  = [ImageUploader.loaded <$> fired]
                /\ (ImageUploader.loaded <$> fired) ≡ₚ ImageUploader.selected imageFiles))
    as Hload.
  { intros fired Hr.
    assert (imageFiles <> []) as Hne.
    { destruct (ImageUploader.processFiles p s fileArray) as [s1 o] eqn:Hp.
      subst r. simpl in Hr. subst o. by apply uploader_batch in Hp as (_ & ? & _). }
    split.
    - intros Hlt. rewrite onloads_calls by (simpl; lia). simpl.
      destruct (Nat.eqb_spec (length fired) (length imageFiles)); [lia|done].
    - intros Hperm. pose proof (Permutation_length Hperm) as Hlen.
      rewrite onloads_calls by (simpl; lia). simpl.
      rewrite Hlen, Nat.eqb_refl. simpl.
      destruct fired as [|g fired]; [by apply Permutation_nil_l in Hperm|].
      rewrite <- Hlen. split; [done|]. unfold ImageUploader.selected. by rewrite Hperm. }
  subst r. unfold ImageUploader.processFiles in *. fold imageFiles in Hload |- *.
  destruct (Nat.eqb_spec (length imageFiles) 0) as [H0|H0].
  { simpl. split_and!; [|by left|done|done|done].
    split; [intros [[=] _]|]. intros (Hne & _). destruct imageFiles; [done|discriminate]. }
  destruct (Z.gtb_spec (Z.of_nat (length imageFiles)) (ImageUploader.maxFiles p)) as [Hgt|Hle].
  { simpl. split_and!; [|by left|done|done|done].
    split; [intros [[=] _]|]. intros (_ & Hmax & _). lia. }
  destruct (List.filter (ImageUploader.oversized p) imageFiles) as [|g gs] eqn:Hov.
  - simpl. split_and!; [|by right|done|done|exact Hload].
    split; [|done]. intros _. split_and!; [|done|by apply oversized_none].
    intros Hnil. by rewrite Hnil in H0.
  - simpl. split_and!; [|by left|done|done|done].
    split; [intros [[=] _]|]. intros (_ & _ & Hall%oversized_none). congruence.
Qed.

Lemma pastedFiles_elem items f :
  f ∈ ImageUploader.pastedFiles items
  <-> exists item, item ∈ items
        /\ Js.startsWith (ImageUploader.itemType item) "image/" = true
        /\ ImageUploader.getAsFile item = Some f.
Proof.
  induction items as [|item items IH]; simpl.
  - split; [by intros ?%elem_of_nil|]. by intros (? & ?%elem_of_nil & _).
  - destruct (Js.startsWith (ImageUploader.itemType item) "image/") eqn:Hty;
      [destruct (ImageUploader.getAsFile item) as [g|] eqn:Hg|].
    + rewrite elem_of_cons, IH. split.
      * intros [->|(it & Hit & H)]; [exists item|exists it]; split; try done; [left|by right].
      * intros (it & [->|Hit]%elem_of_cons & Hs & Hf); [left; congruence|right; eauto].
    + rewrite IH. split.
      * intros (it & Hit & H). exists it. split; [by right|done].
      * intros (it & [->|Hit]%elem_of_cons & Hs & Hf); [congruence|eauto].
    + rewrite IH. split.
      * intros (it & Hit & H). exists it. split; [by right|done].
      * intros (it & [->|Hit]%elem_of_cons & Hs & Hf); [congruence|eauto].
Qed.

(** X10.  A paste is taken over by [ImageUploader] (the default action
    prevented, the files validated like a selection) exactly when the
    uploader is enabled and the clipboard holds an image item that
    yields a file; the files validated are those of the image items, in
    clipboard order.  Any other paste is left to the browser and
    changes nothing, not even the message shown. *)
Theorem paste_taken_over_iff (p : ImageUploader.Props) (s : ImageUploader.State)
    (items : option (list ImageUploader.Item)) :
  let r := ImageUploader.handlePaste p s items in
  (r.1 = true
   <-> ImageUploader.disabled p = false
       /\ exists its item f,
            items = Some its /\ item ∈ its
            /\ Js.startsWith (ImageUploader.itemType item) "image/" = true
            /\ ImageUploader.getAsFile item = Some f)
  /\ (r.1 = true ->
      forall its, items = Some its ->
        r.2 = ImageUploader.processFiles p s (ImageUploader.pastedFiles its))
  /\ (r.1 = false -> r.2 = (s, None)).
Proof.
  intros r. subst r. unfold ImageUploader.handlePaste.
  destruct (ImageUploader.disabled p).
  { simpl. split_and!; [|done|done]. split; [done|]. by intros [[=] _]. }
  destruct items as [its|].
  2:{ simpl. split_and!; [|done|done]. split; [done|]. by intros (_ & ? & ? & ? & [=] & _). }
  destruct (ImageUploader.pastedFiles its) as [|f fs] eqn:Hfs; simpl.
  - split_and!; [|done|done]. split; [done|].
    intros (_ & its' & item & g & [= <-] & Hin & Hty & Hg).
    assert (g ∈ ImageUploader.pastedFiles its) as Hel by (apply pastedFiles_elem; eauto).
    rewrite Hfs in Hel. by apply elem_of_nil in Hel.
  - split_and!; [|by intros _ its' [= <-]; rewrite Hfs|done].
    split; [|done]. intros _. split; [done|].
    assert (f ∈ ImageUploader.pastedFiles its) as Hel by (rewrite Hfs; left).
    apply pastedFiles_elem in Hel as (item & Hin & Hty & Hg).
    exists its, item, f. done.
Qed.

(** ** The box between upload and release *)

Section Box.
Import UnifiedInputBox.

Lemma cleanup_deletes s url :
  Delete url ∈ cleanup s ->
  exists sid, imageSessionId s = Some sid /\ sid <> "" /\ url = releaseUrl sid.
Proof.
  unfold cleanup. destruct (imageSessionId s) as [sid|]; [|by intros ?%elem_of_nil].
  destruct (Js.truthy sid) eqn:Ht; [|by intros ?%elem_of_nil].
  intros [= ->]%list_elem_of_singleton. exists sid. by rewrite <- truthy_true.
Qed.

Lemma cleanup_releases s sid :
  imageSessionId s = Some sid -> sid <> "" -> Delete (releaseUrl sid) ∈ cleanup s.
Proof.
  intros Hs Hne%truthy_true. unfold cleanup. rewrite Hs, Hne. left.
Qed.

Lemma handle_session e s :
  imageSessionId (handle e s).1 = imageSessionId s
  \/ imageSessionId (handle e s).1 = None
  \/ exists imgs data, e = UploadAnswered imgs (Uploaded data)
                       /\ imageSessionId (handle e s).1 = sessionId data.
Proof.
  destruct e as [imgs|imgs [data|err]|index|k|]; simpl; try by left.
  - right. right. exists imgs, data. split; [done|apply resume_session].
  - unfold handleRemoveImage.
    destruct (length _ =? 0)%nat; [right; by left|by left].
Qed.

Lemma handle_deletes e s url :
  Delete url ∈ (handle e s).2 ->
  exists sid, imageSessionId s = Some sid /\ sid <> "" /\ url = releaseUrl sid.
Proof.
  destruct e as [imgs|imgs r|index|k|]; simpl;
    try (by intros ?%elem_of_nil).
  - intros [=]%list_elem_of_singleton.
  - unfold handleRemoveImage.
    destruct (length _ =? 0)%nat; simpl; [apply cleanup_deletes|by intros ?%elem_of_nil].
Qed.

Lemma step_deletes e s url :
  Delete url ∈ (step e s).2 ->
  exists sid, imageSessionId s = Some sid /\ sid <> "" /\ url = releaseUrl sid.
Proof.
  unfold step. simpl. intros [H|H]%elem_of_app; [by eapply handle_deletes|].
  unfold commit in H. destruct (decide _); [by apply elem_of_nil in H|].
  by apply cleanup_deletes.
Qed.

Lemma step_releases e s sid :
  imageSessionId s = Some sid -> sid <> "" ->
  imageSessionId (step e s).1 = Some sid \/ Delete (releaseUrl sid) ∈ (step e s).2.
Proof.
  intros Hs Hne. unfold step. simpl.
  destruct (decide (imageSessionId s = imageSessionId (handle e s).1)) as [Heq|Hneq].
  - left. congruence.
  - right. apply elem_of_app. right. unfold commit.
    destruct (decide _); [done|]. by apply cleanup_releases.
Qed.

(** A session id that was held or is issued during a run is released
    during the run or held at its end. *)
Lemma run_releases es s sid :
  sid <> "" ->
  imageSessionId s = Some sid \/ sid ∈ issued es ->
  imageSessionId (run es s).1 = Some sid \/ Delete (releaseUrl sid) ∈ (run es s).2.
Proof.
  intros Hne. revert s. induction es as [|e es IH]; intros s Hsid; simpl.
  { destruct Hsid as [?|?%elem_of_nil]; [by left|done]. }
  assert (imageSessionId (step e s).1 = Some sid \/ sid ∈ issued es
          \/ Delete (releaseUrl sid) ∈ (step e s).2) as Hcase.
  { destruct Hsid as [Hheld|Hiss].
    - destruct (step_releases e s sid Hheld Hne); auto.
    - destruct e as [imgs|imgs [data|err]|index|k|]; simpl in Hiss; auto.
      destruct (sessionId data) as [sid'|] eqn:Hd; auto.
      apply elem_of_cons in Hiss as [->|Hiss]; auto.
      left. unfold step. cbn [handle fst]. by rewrite resume_session. }
  destruct Hcase as [Hheld|[Hiss|Hdel]].
  - destruct (IH (step e s).1 (or_introl Hheld)) as [?|?]; [by left|].
    right. apply elem_of_app. by right.
  - destruct (IH (step e s).1 (or_intror Hiss)) as [?|?]; [by left|].
    right. apply elem_of_app. by right.
  - right. apply elem_of_app. by left.
Qed.

Lemma issued_cons e es sid :
  sid ∈ issued [e] \/ sid ∈ issued es -> sid ∈ issued (e :: es).
Proof.
  destruct e as [imgs|imgs [data|err]|index|k|]; simpl;
    try (by intros [?%elem_of_nil|?]).
  destruct (sessionId data); [|by intros [?%elem_of_nil|?]].
  intros [->%list_elem_of_singleton|?]; [left|by right].
Qed.

Lemma handle_holds e s sid :
  imageSessionId (handle e s).1 = Some sid ->
  imageSessionId s = Some sid \/ sid ∈ issued [e].
Proof.
  intros Hstep.
  destruct (handle_session e s) as [Heq|[Hnone|(imgs & data & -> & Hd)]].
  - left. congruence.
  - congruence.
  - right. simpl. rewrite Hd in Hstep. rewrite Hstep. left.
Qed.

(** The session id held at the end of a run was held at its start or
    issued during it. *)
Lemma run_session es s sid :
  imageSessionId (run es s).1 = Some sid ->
  imageSessionId s = Some sid \/ sid ∈ issued es.
Proof.
  revert s. induction es as [|e es IH]; intros s; simpl; [by left|].
  intros [Hstep|Hiss]%IH.
  - apply handle_holds in Hstep as [?|?]; [by left|right]. apply issued_cons. by left.
  - right. apply issued_cons. by right.
Qed.

(** Every release call of a run is for a session id held at its start
    or issued during it. *)
Lemma run_deletes es s url :
  Delete url ∈ (run es s).2 ->
  exists sid, (imageSessionId s = Some sid \/ sid ∈ issued es)
              /\ sid <> "" /\ url = releaseUrl sid.
Proof.
  revert s. induction es as [|e es IH]; intros s; simpl; [by intros ?%elem_of_nil|].
  intros [Hd|Hd]%elem_of_app.
  - apply step_deletes in Hd as (sid & Hs & Hne & ->). exists sid. auto.
  - apply IH in Hd as (sid & Hs & Hne & ->). exists sid. split; [|done].
    destruct Hs as [Hs|Hs].
    + apply handle_holds in Hs as [?|?]; [by left|right]. apply issued_cons. by left.
    + right. apply issued_cons. by right.
Qed.

End Box.

(** X11.  Over the life of a box, from mount to unmount and whatever
    the user and the API do in between, the sessions released are
    exactly the sessions issued: every non-empty session id an upload
    was answered with gets a DELETE call for its URL, and every DELETE
    call is for such an id. *)
Theorem sessions_released_exactly (es : list UnifiedInputBox.Event) :
  (forall sid,
     sid ∈ issued es -> sid <> "" ->
     Delete ("/generations/image-sessions/" +:+ sid) ∈ UnifiedInputBox.lifetime es)
  /\ (forall url,
        Delete url ∈ UnifiedInputBox.lifetime es ->
        exists sid, sid ∈ issued es /\ sid <> ""
                    /\ url = "/generations/image-sessions/" +:+ sid).
Proof.
  unfold UnifiedInputBox.lifetime. split.
  - intros sid Hiss Hne. apply elem_of_app.
    destruct (run_releases es UnifiedInputBox.initial sid Hne (or_intror Hiss)) as [Hheld|Hdel];
      [right|by left].
    by apply cleanup_releases.
  - intros url [Hd|Hd]%elem_of_app.
    + apply run_deletes in Hd as (sid & [Hs|Hs] & Hne & ->); [done|]. by exists sid.
    + apply cleanup_deletes in Hd as (sid & Hs & Hne & ->).
      apply run_session in Hs as [Hs|Hs]; [done|]. by exists sid.
Qed.

(** X12.  After an upload is answered, the panel of detected keys is
    shown exactly when the answer lists at least one key, whatever was
    shown before; a failed upload leaves the panel as it was; picking a
    key, dismissing the panel or removing the only image hides it. *)
Theorem panel_follows_detected_keys (s : UnifiedInputBox.State)
    (imgs : list ImageUploader.UploadedImage) :
  (forall data,
     UnifiedInputBox.panelVisible
       (UnifiedInputBox.handleImagesSelected_resume imgs (UnifiedInputBox.Uploaded data) s)
     = (0 <? length (default [] (UnifiedInputBox.allKeys data)))%nat)
  /\ (forall err,
        UnifiedInputBox.panelVisible
          (UnifiedInputBox.handleImagesSelected_resume imgs (UnifiedInputBox.UploadFailed err) s)
        = UnifiedInputBox.panelVisible s)
  /\ (forall k, UnifiedInputBox.panelVisible (UnifiedInputBox.handleJiraKeyClick k s).2 = false)
  /\ UnifiedInputBox.panelVisible (UnifiedInputBox.setShowDetectedKeys false s) = false
  /\ (forall img,
        UnifiedInputBox.images s = [img] ->
        UnifiedInputBox.panelVisible (UnifiedInputBox.handleRemoveImage 0 s).1 = false).
Proof.
  split_and!; try done.
  - intros data. unfold UnifiedInputBox.handleImagesSelected_resume, UnifiedInputBox.panelVisible.
    destruct (UnifiedInputBox.allKeys data) as [ks|]; simpl.
    + destruct (0 <? length ks)%nat eqn:Hks; simpl; rewrite ?Hks; [done|].
      apply andb_false_r.
    + apply andb_false_r.
  - intros img Himg. by rewrite remove_last by (rewrite Himg; reflexivity).
Qed.

Lemma setImages_same s :
  UnifiedInputBox.setImages (UnifiedInputBox.images s) s = s.
Proof. by destruct s. Qed.

(** X13.  Removing one of several attached images drops that position
    and nothing else: the session id, the detected keys and the panel
    stay, and neither the handler nor the effect sends a request.  An
    index past the end of a non-empty list changes nothing. *)
Theorem removing_one_of_several (s : UnifiedInputBox.State) (index : nat) :
  (2 <= length (UnifiedInputBox.images s))%nat ->
  UnifiedInputBox.removeClicked index s
  = (UnifiedInputBox.setImages (delete index (UnifiedInputBox.images s)) s, [])
  /\ UnifiedInputBox.handleRemoveImage index s
     = (UnifiedInputBox.setImages (delete index (UnifiedInputBox.images s)) s, [])
  /\ ((index < length (UnifiedInputBox.images s))%nat ->
      S (length (UnifiedInputBox.images (UnifiedInputBox.handleRemoveImage index s).1))
      = length (UnifiedInputBox.images s))
  /\ ((length (UnifiedInputBox.images s) <= index)%nat ->
      UnifiedInputBox.removeClicked index s = (s, [])).
Proof.
  intros Hlen.
  assert (UnifiedInputBox.handleRemoveImage index s
          = (UnifiedInputBox.setImages (delete index (UnifiedInputBox.images s)) s, [])) as Hrm.
  { rewrite remove_kept; rewrite filteri_delete; [done|].
    intros Hnil. apply (f_equal length) in Hnil.
    destruct (decide (index < length (UnifiedInputBox.images s))%nat) as [Hlt|Hge].
    - rewrite length_delete in Hnil by (by apply lookup_lt_is_Some_2). simpl in Hnil. lia.
    - rewrite delete_out_of_range in Hnil by lia. simpl in Hnil. lia. }
  assert (UnifiedInputBox.removeClicked index s
          = (UnifiedInputBox.setImages (delete index (UnifiedInputBox.images s)) s, [])) as Hclick.
  { unfold UnifiedInputBox.removeClicked. rewrite Hrm. simpl.
    unfold UnifiedInputBox.commit. simpl. by destruct (decide _). }
  split_and!; [done|done| |].
  - intros Hlt. rewrite Hrm. simpl.
    rewrite length_delete by (by apply lookup_lt_is_Some_2). lia.
  - intros Hge. rewrite Hclick, delete_out_of_range by done. by rewrite setImages_same.
Qed.

(** Two screenshots under one session; the second is removed. *)
Lemma removing_one_of_several_witness :
  let s := boxWith [png 1 10; png 2 20] "sess-1" in
  (UnifiedInputBox.removeClicked 1 s).2 = []
  /\ UnifiedInputBox.imageSessionId (UnifiedInputBox.removeClicked 1 s).1 = Some "sess-1".
Proof.
  intros s.
  destruct (removing_one_of_several s 1%nat ltac:(vm_compute; lia)) as (H & _).
  rewrite H. split; reflexivity.
Defined.

(** X14.  A key picked from the panel becomes the issue key (the
    analysis shown is dropped when the key differs from the one held,
    and the page is as before when it is the same), and the requests
    that follow are bound to the session at hand: with a non-empty
    session id held and a non-blank key picked, analyze posts the
    trimmed key together with the session id to /generations/prelight,
    and generate posts the same body to /generations/testcases. *)
Theorem picked_key_bound_to_session (box : UnifiedInputBox.State) (page : GeneratePage.State)
    (sid jiraKey : string) :
  UnifiedInputBox.imageSessionId box = Some sid ->
  sid <> "" ->
  Js.blank jiraKey = false ->
  let picked := UnifiedInputBox.handleJiraKeyClick jiraKey box in
  let page' := GeneratePage.issueKeyChanged picked.1 page in
  GeneratePage.issueKey page' = jiraKey
  /\ (jiraKey <> GeneratePage.issueKey page -> GeneratePage.prelight page' = None)
  /\ (jiraKey = GeneratePage.issueKey page -> page' = page)
  /\ UnifiedInputBox.images picked.2 = UnifiedInputBox.images box
  /\ (GeneratePage.handleAnalyze picked.2 page').2
     = [Post "/generations/prelight"
          (Json [("issueKey", Js.trim jiraKey); ("imageSessionId", sid)])]
  /\ (GeneratePage.handleGenerate picked.2 page').2
     = [Post "/generations/testcases"
          (Json [("issueKey", Js.trim jiraKey); ("imageSessionId", sid)])].
Proof.
  intros Hsid Hne%truthy_true Hb picked page'. subst picked page'.
  cbn [UnifiedInputBox.handleJiraKeyClick fst snd].
  assert (GeneratePage.issueKey (GeneratePage.issueKeyChanged jiraKey page) = jiraKey) as Hkey.
  { unfold GeneratePage.issueKeyChanged. by destruct (String.eqb _ _). }
  split_and!.
  - exact Hkey.
  - intros Hdiff. unfold GeneratePage.issueKeyChanged.
    destruct (String.eqb_spec jiraKey (GeneratePage.issueKey page)); done.
  - intros ->. unfold GeneratePage.issueKeyChanged. rewrite String.eqb_refl. by destruct page.
  - done.
  - unfold GeneratePage.handleAnalyze, UnifiedInputBox.sessionArgument, GeneratePage.analyze,
      GeneratePage.payload.
    cbn [UnifiedInputBox.imageSessionId UnifiedInputBox.setShowDetectedKeys].
    by rewrite Hkey, Hsid, Hne, blank_guard, Hb, Hne.
  - unfold GeneratePage.handleGenerate, UnifiedInputBox.sessionArgument,
      GeneratePage.performGeneration, GeneratePage.payload.
    cbn [UnifiedInputBox.imageSessionId UnifiedInputBox.setShowDetectedKeys].
    by rewrite Hkey, Hsid, Hne, blank_guard, Hb, Hne.
Qed.

(** The upload found ABC-1; the user picks it. *)
Lemma picked_key_bound_to_session_witness :
  let box := boxWith [png 1 10] "sess-1" in
  let picked := UnifiedInputBox.handleJiraKeyClick "ABC-1" box in
  (GeneratePage.handleAnalyze picked.2
     (GeneratePage.issueKeyChanged picked.1 GeneratePage.initial)).2
  = [Post "/generations/prelight"
       (Json [("issueKey", "ABC-1"); ("imageSessionId", "sess-1")])].
Proof.
  intros box picked.
  apply (picked_key_bound_to_session box GeneratePage.initial "sess-1" "ABC-1" eq_refl);
    [discriminate|reflexivity].
Defined.

(** X15.  An upload, from its start to its answer, always ends with the
    uploading flag cleared.  Answered with success it leaves no error
    message and as many records as files were sent; failing, it leaves
    the images, the session id and the detected keys as they were and
    shows a message that is never empty: the server's, or "Failed to
    upload images" when the server gave none or an empty one. *)
Theorem upload_round (s : UnifiedInputBox.State) (imgs : list ImageUploader.UploadedImage)
    (r : UnifiedInputBox.UploadResponse) :
  let started := (UnifiedInputBox.handleImagesSelected imgs s).1 in
  let s' := UnifiedInputBox.handleImagesSelected_resume imgs r started in
  UnifiedInputBox.uploading started = true
  /\ UnifiedInputBox.uploading s' = false
  /\ (forall data,
        r = UnifiedInputBox.Uploaded data ->
        UnifiedInputBox.uploadError s' = None
        /\ length (UnifiedInputBox.images s') = length imgs
        /\ UnifiedInputBox.imageSessionId s' = UnifiedInputBox.sessionId data)
  /\ (forall err,
        r = UnifiedInputBox.UploadFailed err ->
        UnifiedInputBox.images s' = UnifiedInputBox.images s
        /\ UnifiedInputBox.imageSessionId s' = UnifiedInputBox.imageSessionId s
        /\ UnifiedInputBox.detectedKeys s' = UnifiedInputBox.detectedKeys s
        /\ exists message,
             UnifiedInputBox.uploadError s' = Some message /\ message <> ""
             /\ (message = "Failed to upload images" \/ err = Some message)).
Proof.
  intros started s'. subst started s'. split_and!; [done| | |].
  - destruct r as [data|err]; [|done]. simpl.
    destruct (UnifiedInputBox.allKeys data) as [ks|]; [destruct (0 <? length ks)%nat|]; done.
  - intros data ->. rewrite resume_images, resume_session, length_imap.
    split_and!; [|done|done]. simpl.
    destruct (UnifiedInputBox.allKeys data) as [ks|]; [destruct (0 <? length ks)%nat|]; done.
  - intros err ->. simpl. split_and!; [done|done|done|].
    eexists. split; [reflexivity|].
    destruct err as [m|]; simpl; [destruct (Js.truthy m) eqn:Hm|].
    + split; [by apply truthy_true|by right].
    + split; [done|by left].
    + split; [done|by left].
Qed.

(** ** The two actions of the page *)

Lemma or_else_nonempty a b : b <> "" -> Js.or_else a b <> "".
Proof.
  intros Hb. unfold Js.or_else. destruct a as [m|]; [|done].
  destruct (Js.truthy m) eqn:Hm; [by apply truthy_true|done].
Qed.

(** X16.  With a non-blank issue key, each action runs the same round:
    started, it sets its own flag and empties its own result slot;
    answered, it clears the flag and fills the slot, with the response
    body or with an error whose message is never empty.  The issue key
    and the other action's flag and slot are untouched throughout. *)
Theorem action_round (s : GeneratePage.State) (imageSessionId : option string)
    (r : GeneratePage.Response) :
  Js.blank (GeneratePage.issueKey s) = false ->
  let a := (GeneratePage.analyze imageSessionId s).1 in
  let a' := GeneratePage.analyze_resume r a in
  let g := (GeneratePage.performGeneration imageSessionId s).1 in
  let g' := GeneratePage.performGeneration_resume r g in
  (GeneratePage.analyzing a = true /\ GeneratePage.prelight a = None
   /\ GeneratePage.analyzing a' = false
   /\ (exists result, GeneratePage.prelight a' = Some result
         /\ match r, result with
            | GeneratePage.Ok body, GeneratePage.Data body' => body' = body
            | GeneratePage.Failed _, GeneratePage.Error message => message <> ""
            | _, _ => False
            end)
   /\ GeneratePage.issueKey a' = GeneratePage.issueKey s
   /\ GeneratePage.genResult a' = GeneratePage.genResult s
   /\ GeneratePage.generating a' = GeneratePage.generating s)
  /\ (GeneratePage.generating g = true /\ GeneratePage.genResult g = None
      /\ GeneratePage.generating g' = false
      /\ (exists result, GeneratePage.genResult g' = Some result
            /\ match r, result with
               | GeneratePage.Ok body, GeneratePage.Data body' => body' = body
               | GeneratePage.Failed _, GeneratePage.Error message => message <> ""
               | _, _ => False
               end)
      /\ GeneratePage.issueKey g' = GeneratePage.issueKey s
      /\ GeneratePage.prelight g' = GeneratePage.prelight s
      /\ GeneratePage.analyzing g' = GeneratePage.analyzing s).
Proof.
  intros Hb a a' g g'. subst a' a g' g.
  unfold GeneratePage.analyze, GeneratePage.performGeneration.
  rewrite blank_guard, Hb.
  split; (split_and!; try done; destruct r as [body|err]; simpl; try done;
          eexists; (split; [reflexivity|]); simpl; try done; by apply or_else_nonempty).
Qed.

(** The key is typed; the analysis fails without a server message. *)
Lemma action_round_witness :
  let s := GeneratePage.issueKeyChanged "ABC-1" GeneratePage.initial in
  GeneratePage.analyze_resume (GeneratePage.Failed None) (GeneratePage.analyze None s).1
  = {| GeneratePage.issueKey := "ABC-1";
       GeneratePage.prelight := Some (GeneratePage.Error "Analysis failed");
       GeneratePage.genResult := None;
       GeneratePage.analyzing := false;
       GeneratePage.generating := false |}
  /\ GeneratePage.analyzing
       (GeneratePage.analyze_resume (GeneratePage.Failed None) (GeneratePage.analyze None s).1)
     = false.
Proof.
  intros s. split; [reflexivity|].
  apply (action_round s None (GeneratePage.Failed None) eq_refl).
Defined.

(** X17.  The two actions do not guard against each other: each sends
    its request and makes its state changes whether or not the other is
    in flight, so that starting them in either order, and receiving
    their answers in either order, leads to the same page state. *)
Theorem actions_independent (s : GeneratePage.State) (sidA sidG : option string)
    (rA rG : GeneratePage.Response) :
  (GeneratePage.performGeneration sidG (GeneratePage.analyze sidA s).1).2
    = (GeneratePage.performGeneration sidG s).2
  /\ (GeneratePage.analyze sidA (GeneratePage.performGeneration sidG s).1).2
     = (GeneratePage.analyze sidA s).2
  /\ (GeneratePage.performGeneration sidG (GeneratePage.analyze sidA s).1).1
     = (GeneratePage.analyze sidA (GeneratePage.performGeneration sidG s).1).1
  /\ GeneratePage.analyze_resume rA (GeneratePage.performGeneration_resume rG s)
     = GeneratePage.performGeneration_resume rG (GeneratePage.analyze_resume rA s).
Proof.
  unfold GeneratePage.analyze, GeneratePage.performGeneration.
  split_and!.
  - destruct (negb (Js.truthy (Js.trim (GeneratePage.issueKey s)))) eqn:Hb; simpl; by rewrite Hb.
  - destruct (negb (Js.truthy (Js.trim (GeneratePage.issueKey s)))) eqn:Hb; simpl; by rewrite Hb.
  - destruct (negb (Js.truthy (Js.trim (GeneratePage.issueKey s)))) eqn:Hb; simpl; by rewrite Hb.
  - by destruct rA, rG.
Qed.

(** X18.  An answer that arrives after the issue key was edited is
    still shown: editing the key empties the analysis slot but cancels
    nothing, and the late answer fills the slot and clears the flag
    under the new key. *)
Theorem late_answer_is_shown (s : GeneratePage.State) (imageSessionId : option string)
    (edited body : string) :
  Js.blank (GeneratePage.issueKey s) = false ->
  let inFlight := (GeneratePage.analyze imageSessionId s).1 in
  let editedPage := GeneratePage.issueKeyChanged edited inFlight in
  GeneratePage.prelight editedPage = None
  /\ GeneratePage.analyzing editedPage = true
  /\ GeneratePage.analyze_resume (GeneratePage.Ok body) editedPage
     = {| GeneratePage.issueKey := edited;
          GeneratePage.prelight := Some (GeneratePage.Data body);
          GeneratePage.genResult := GeneratePage.genResult s;
          GeneratePage.analyzing := false;
          GeneratePage.generating := GeneratePage.generating s |}.
Proof.
  intros Hb inFlight editedPage. subst editedPage inFlight.
  unfold GeneratePage.analyze, GeneratePage.issueKeyChanged. rewrite blank_guard, Hb.
  cbn [fst negb]. by destruct (String.eqb _ _).
Qed.

(** ABC-1 is analysed, the key is changed to XYZ-9, then the answer comes. *)
Lemma late_answer_is_shown_witness :
  let s := GeneratePage.issueKeyChanged "ABC-1" GeneratePage.initial in
  GeneratePage.issueKey
    (GeneratePage.analyze_resume (GeneratePage.Ok "{}")
       (GeneratePage.issueKeyChanged "XYZ-9" (GeneratePage.analyze None s).1))
  = "XYZ-9".
Proof.
  intros s.
  destruct (late_answer_is_shown s None "XYZ-9" "{}" eq_refl) as (_ & _ & H).
  rewrite H. reflexivity.
Defined.

(** ** The interceptors and the route guard *)

Lemma onRejected_other e w :
  Api.status e <> Some 401 -> Api.onRejected e w = (w, e).
Proof.
  intros Hne. unfold Api.onRejected.
  destruct (Api.status e) as [[|q|q]|]; try done.
  do 9 (destruct q as [q|q|]; try done).
Qed.

Lemma onRejected_unauthorized e w :
  Api.status e = Some 401 ->
  Api.onRejected e w
  = if negb (String.eqb (Api.pathname (Api.window w)) "/login")
       && negb (String.eqb (Api.pathname (Api.window w)) "/register")
    then ({| Api.auth := Api.logout (Api.auth w);
             Api.window := Api.replace "/login" (Api.window w);
             Api.navigations := Api.navigations w ++ [Api.Replace "/login"] |}, e)
    else ({| Api.auth := Api.logout (Api.auth w);
             Api.window := Api.window w;
             Api.navigations := Api.navigations w |}, e).
Proof. intros H. unfold Api.onRejected. by rewrite H. Qed.

(** X19.  The response interceptor acts on status 401 only, and acts
    on every such response: an error with another status, or without a
    response, leaves the store, the location and the history alone, and
    the error is always handed on to the caller.  A second 401 handled
    by the same document, which still reads its own pathname, finds the
    credentials cleared and, away from /login and /register, asks for
    the replacement by /login once more; on those two pages neither
    response navigates. *)
Theorem unauthorized_per_response (e1 e2 : Api.AxiosError) (w : Api.World) :
  (Api.status e1 <> Some 401 -> Api.onRejected e1 w = (w, e1))
  /\ (Api.onRejected e1 w).2 = e1
  /\ (Api.status e1 = Some 401 ->
      Api.status e2 = Some 401 ->
      let w1 := (Api.onRejected e1 w).1 in
      let w2 := (Api.onRejected e2 (Api.sameDocument w w1)).1 in
      Api.auth w2 = Api.auth w1
      /\ (Api.pathname (Api.window w) <> "/login" ->
          Api.pathname (Api.window w) <> "/register" ->
          Api.navigations w2
          = Api.navigations w ++ [Api.Replace "/login"; Api.Replace "/login"])
      /\ (Api.pathname (Api.window w) = "/login"
          \/ Api.pathname (Api.window w) = "/register" ->
          Api.navigations w2 = Api.navigations w)).
Proof.
  split_and!.
  - by apply onRejected_other.
  - destruct (decide (Api.status e1 = Some 401)) as [H1|H1].
    + rewrite (onRejected_unauthorized e1 w H1). by destruct (negb _ && negb _).
    + by rewrite onRejected_other.
  - intros H1 H2 w1 w2. subst w2 w1.
    rewrite (onRejected_unauthorized e1 w H1).
    destruct (negb (String.eqb (Api.pathname (Api.window w)) "/login")
              && negb (String.eqb (Api.pathname (Api.window w)) "/register")) eqn:Hnav;
      rewrite (onRejected_unauthorized e2 _ H2);
      cbn [fst Api.sameDocument Api.window]; rewrite Hnav;
      cbn [fst Api.auth Api.navigations Api.sameDocument].
    + split_and!; [done|by intros _ _; rewrite <- app_assoc|].
      apply andb_true_iff in Hnav as [Hl%negb_true_iff%String.eqb_neq
                                      Hr%negb_true_iff%String.eqb_neq].
      by intros [?|?].
    + split_and!; [done| |done].
      intros Hl%String.eqb_neq Hr%String.eqb_neq. by rewrite Hl, Hr in Hnav.
Qed.

(** Two calls made from the dashboard both come back with 401. *)
Lemma unauthorized_per_response_witness :
  let w := {| Api.auth := {| Api.accessToken := Some "token"; Api.user := Some "a@b.c" |};
              Api.window := {| Api.pathname := "/dashboard"; Api.earlier := ["/"] |};
              Api.navigations := [] |} in
  let e := {| Api.status := Some 401; Api.serverError := None |} in
  Api.navigations (Api.onRejected e (Api.sameDocument w (Api.onRejected e w).1)).1
  = [Api.Replace "/login"; Api.Replace "/login"].
Proof.
  intros w e.
  destruct (proj2 (proj2 (unauthorized_per_response e e w)) eq_refl eq_refl) as (_ & H & _).
  apply H; discriminate.
Defined.

(** X20.  The route guard and the request interceptor read the token
    alike: a private route renders its page exactly when a request
    would carry an Authorization header, which is "Bearer " followed by
    the token; with no token, or an empty one, the guard redirects to
    /login, replacing the history entry, and requests go out without
    the header. *)
Theorem guard_agrees_with_header (a : Api.Auth) :
  (Api.PrivateRoute a = Api.Children
   <-> exists token, Api.accessToken a = Some token /\ token <> ""
                     /\ Api.authorization a = Some ("Bearer " +:+ token))
  /\ (Api.PrivateRoute a = Api.Navigate "/login" true <-> Api.authorization a = None)
  /\ (Api.authorization a = None
      <-> Api.accessToken a = None \/ Api.accessToken a = Some "").
Proof.
  unfold Api.PrivateRoute, Api.authorization.
  destruct (Api.accessToken a) as [token|].
  - destruct token as [|c token]; simpl.
    + split_and!; [|done|by split; [right|]].
      split; [done|]. by intros (t & [= <-] & Hne & _).
    + split_and!.
      * split; [|done]. intros _. by eexists.
      * split; done.
      * split; [done|]. by intros [|[=]].
  - simpl. split_and!; [|done|by split; [left|]].
    split; [done|]. by intros (t & [=] & _).
Qed.

(** X21.  Whatever surface the files come from (the file input, a drop
    or a paste), [ImageUploader] hands on only a batch that is not
    empty, holds image files only, at most [maxFiles] of them, none
    above the size limit; and a disabled uploader hands nothing on from
    a drop or a paste. *)
Theorem uploader_entry_points (p : ImageUploader.Props) (s : ImageUploader.State)
    (files : list File.t) (items : option (list ImageUploader.Item)) :
  (forall r batch,
     r = ImageUploader.handleFileChange p s files
     \/ r = ImageUploader.handleDrop p s files
     \/ r = (ImageUploader.handlePaste p s items).2 ->
     r.2 = Some batch ->
     batch <> []
     /\ Forall (fun f => ImageUploader.isImage f = true) batch
     /\ Z.of_nat (length batch) <= ImageUploader.maxFiles p
     /\ Forall (fun f => File.size f <= ImageUploader.maxSizeBytes p) batch)
  /\ (ImageUploader.disabled p = true ->
      (ImageUploader.handleDrop p s files).2 = None
      /\ (ImageUploader.handlePaste p s items).2.2 = None).
Proof.
  assert (forall s0 fs r batch,
            r = ImageUploader.processFiles p s0 fs -> r.2 = Some batch ->
            batch <> []
            /\ Forall (fun f => ImageUploader.isImage f = true) batch
            /\ Z.of_nat (length batch) <= ImageUploader.maxFiles p
            /\ Forall (fun f => File.size f <= ImageUploader.maxSizeBytes p) batch) as Hproc.
  { intros s0 fs r batch -> Hb.
    destruct (ImageUploader.processFiles p s0 fs) as [s1 o] eqn:Hr. simpl in Hb. subst o.
    apply uploader_batch in Hr as (-> & Hne & Hmax & Hov).
    split_and!; [done| |done|by apply oversized_none].
    apply Forall_forall. intros f Hf%list_elem_of_In%filter_In. tauto. }
  split.
  - intros r batch Hr Hb. destruct Hr as [Hr|[Hr|Hr]]; subst r.
    + unfold ImageUploader.handleFileChange in Hb |- *.
      destruct (0 <? length files)%nat; [by eapply Hproc|done].
    + unfold ImageUploader.handleDrop in Hb |- *.
      destruct (negb _ && _); [by eapply Hproc|done].
    + unfold ImageUploader.handlePaste in Hb |- *.
      destruct (ImageUploader.disabled p); [done|].
      destruct items as [its|]; [|done].
      destruct (0 <? length _)%nat; [by eapply Hproc|done].
  - intros Hd. unfold ImageUploader.handleDrop, ImageUploader.handlePaste. by rewrite Hd.
Qed.
